(** * The web crawler's page step, link filter and page extractor

    A shallow embedding of [src/lambda/crawler/core.ts] and of
    [src/lambda/steps/3_crawlPageAndQueueUrls.ts].

    - JavaScript strings are modelled by [string]; the model is exact on
      ASCII text, which is what URLs are made of.
    - Everything outside the two files (the browser, [node-fetch], S3, the
      robots parser, the WHATWG [URL] class, the context table helpers) is
      an oracle of a [World] record: its answer is a function of the
      arguments of the call.
    - Effects are a trace of [Event]s, in the order the calls are issued,
      next to a result that is a value or a thrown error.
    - Statements carry JavaScript completions (normal, return, throw) so
      that [try]/[catch]/[finally] behaves as in the language. *)

From Stdlib Require Import String Ascii List Bool Arith Lia.
Import ListNotations.
Open Scope string_scope.
Open Scope list_scope.
Open Scope nat_scope.

Set Implicit Arguments.

(* ===================================================================== *)
(** ** String primitives of the JavaScript runtime *)
(* ===================================================================== *)

Module JsString.

(** [s.startsWith(p)] *)
Definition startsWith (s p : string) : bool := String.prefix p s.

(** [s.includes(sub)] *)
Fixpoint includes (s sub : string) : bool :=
  startsWith s sub ||
  match s with
  | EmptyString => false
  | String _ rest => includes rest sub
  end.

(** One code unit of [toLowerCase]: the letters A..Z move to a..z. *)
Definition lower_ascii (c : ascii) : ascii :=
  let n := nat_of_ascii c in
  if (65 <=? n) && (n <=? 90) then ascii_of_nat (n + 32) else c.

(** [s.toLowerCase()] *)
Fixpoint toLowerCase (s : string) : string :=
  match s with
  | EmptyString => EmptyString
  | String c rest => String (lower_ascii c) (toLowerCase rest)
  end.

(** [s.split(sep)] for a one-character separator. *)
Fixpoint split (sep : ascii) (s : string) : list string :=
  match s with
  | EmptyString => [EmptyString]
  | String c rest =>
      if Ascii.eqb c sep then EmptyString :: split sep rest
      else match split sep rest with
           | [] => [String c EmptyString]
           | h :: t => String c h :: t
           end
  end.

(** [parts.join(sep)] *)
Fixpoint join (sep : string) (parts : list string) : string :=
  match parts with
  | [] => EmptyString
  | [x] => x
  | x :: rest => (x ++ sep ++ join sep rest)%string
  end.

(** [xs.slice(a, b)] for [0 <= a <= b]. *)
Definition slice {A : Type} (a b : nat) (xs : list A) : list A :=
  firstn (b - a) (skipn a xs).

(** Truthiness of a string: only the empty string is falsy. *)
Definition truthy (s : string) : bool :=
  match s with EmptyString => false | _ => true end.

End JsString.

(* ===================================================================== *)
(** ** The link filter's pure predicates (core.ts, lines 85 and 91-93) *)
(* ===================================================================== *)

(** [!url.startsWith('http') || url.startsWith(baseUrl)] *)
Definition isUrlWithinBaseWebsite (url baseUrl : string) : bool :=
  negb (JsString.startsWith url "http") || JsString.startsWith url baseUrl.

(** [!keywords || keywords.length === 0 ||
     keywords.some((keyword) => url.toLowerCase().includes(keyword))];
    an absent list is [None]. *)
Definition isUrlMatchingSomeKeyword (url : string) (keywords : option (list string)) : bool :=
  match keywords with
  | None => true
  | Some kws =>
      (length kws =? 0) ||
      existsb (fun keyword => JsString.includes (JsString.toLowerCase url) keyword) kws
  end.

(* ===================================================================== *)
(** ** Words of the specification, for comparison with the code *)
(* ===================================================================== *)

Module SpecWords.

Definition is_alpha (c : ascii) : bool :=
  let n := nat_of_ascii c in
  ((65 <=? n) && (n <=? 90)) || ((97 <=? n) && (n <=? 122)).

Definition is_scheme_char (c : ascii) : bool :=
  let n := nat_of_ascii c in
  is_alpha c || ((48 <=? n) && (n <=? 57)) ||
  (n =? 43) || (n =? 45) || (n =? 46).

(** The rest of a scheme: scheme characters up to a colon. *)
Fixpoint scheme_tail (s : string) : bool :=
  match s with
  | EmptyString => false
  | String c rest =>
      if Ascii.eqb c ":" then true
      else is_scheme_char c && scheme_tail rest
  end.

(** A URL reference "has a scheme" when it starts with a letter followed
    by letters, digits, [+], [-] or [.] and then a colon (RFC 3986,
    section 3.1); otherwise it is relative. *)
Definition hasScheme (s : string) : bool :=
  match s with
  | EmptyString => false
  | String c rest => is_alpha c && scheme_tail rest
  end.

(** The same-site test in the specification's words: the candidate is
    relative, or the base URL is a literal prefix of it. *)
Definition sameSite (url baseUrl : string) : bool :=
  negb (hasScheme url) || JsString.startsWith url baseUrl.

(** Case-insensitive substring. *)
Definition includes_ci (s sub : string) : bool :=
  JsString.includes (JsString.toLowerCase s) (JsString.toLowerCase sub).

(** The keyword test in the specification's words. *)
Definition matchesSomeKeyword (url : string) (keywords : option (list string)) : bool :=
  match keywords with
  | None => true
  | Some [] => true
  | Some kws => existsb (includes_ci url) kws
  end.

End SpecWords.

(* ===================================================================== *)
(** ** Effects: traces, results and completions *)
(* ===================================================================== *)

(** A thrown value; only its identity matters. *)
Definition Error := string.

Inductive Result (A : Type) : Type :=
| Ok (a : A)
| Err (e : Error).
Arguments Ok {A} a.
Arguments Err {A} e.

(** The browser object handed out by [chrome.puppeteer.launch]. *)
Definition Browser := nat.

Inductive ConsoleLevel := LogLevel | WarnLevel | ErrorLevel.

(** One entry per call that leaves the process, in the order the calls are
    issued.  Console output carries the first argument of the call. *)
Inductive Event : Type :=
| EvMarkPathAsVisited (contextTableName path : string)
| EvQueuePaths (contextTableName : string) (paths : list string)
| EvExecutablePath
| EvLaunch
| EvNewPage (browser : Browser)
| EvGoto (url : string)
| EvEvaluate (what : string)
| EvFetch (method url : string)
| EvPutObject (bucket key body : string)
| EvClose (browser : Browser)
| EvConsole (level : ConsoleLevel) (message : string).

(** An awaited computation: what it did and what it gave. *)
Definition Eff (A : Type) : Type := list Event * Result A.

Definition trace {A} (m : Eff A) : list Event := fst m.
Definition result {A} (m : Eff A) : Result A := snd m.

Definition ret {A} (a : A) : Eff A := ([], Ok a).
Definition throw {A} (e : Error) : Eff A := ([], Err e).

Definition bind {A B} (m : Eff A) (k : A -> Eff B) : Eff B :=
  match m with
  | (t1, Ok a) => let (t2, r) := k a in (t1 ++ t2, r)
  | (t1, Err e) => (t1, Err e)
  end.

(** A call to the outside: the event, then the oracle's answer. *)
Definition call {A} (ev : Event) (answer : Result A) : Eff A := ([ev], answer).

Definition console (level : ConsoleLevel) (message : string) : Eff unit :=
  call (EvConsole level message) (Ok tt).

Declare Scope eff_scope.
Delimit Scope eff_scope with eff.
Notation "x <- m ;; k" := (bind m (fun x => k))
  (at level 100, m at next level, right associativity) : eff_scope.
Notation "' p <- m ;; k" := (bind m (fun p => k))
  (at level 100, p pattern, m at next level, right associativity) : eff_scope.
Notation "m ;; k" := (bind m (fun _ => k))
  (at level 100, right associativity) : eff_scope.
Open Scope eff_scope.

(** How a statement ends (ECMAScript completion records). *)
Inductive Completion (R : Type) : Type :=
| Normal
| Return (r : R)
| Throw (e : Error).
Arguments Normal {R}.
Arguments Return {R} r.
Arguments Throw {R} e.

(** A statement of a function whose local mutable variables are [L] and
    whose return type is [R]. *)
Definition Stmt (L R : Type) : Type := L -> list Event * L * Completion R.

Module Js.
Section Statements.
Variables L R : Type.

Definition skip : Stmt L R := fun l => ([], l, Normal).

(** [return v;] *)
Definition return_ (v : R) : Stmt L R := fun l => ([], l, Return v).

(** [s1; s2] *)
Definition seq (s1 s2 : Stmt L R) : Stmt L R := fun l =>
match s1 l with
| (t1, l1, Normal) => let '(t2, l2, c) := s2 l1 in (t1 ++ t2, l2, c)
| abrupt => abrupt
end.

(** [const x = await m; k x] *)
Definition await {A} (m : Eff A) (k : A -> Stmt L R) : Stmt L R := fun l =>
match m with
| (t1, Ok a) => let '(t2, l2, c) := k a l in (t1 ++ t2, l2, c)
| (t1, Err e) => (t1, l, Throw e)
end.

(** [x = v;] on a local variable. *)
Definition assign (f : L -> L) : Stmt L R := fun l => ([], f l, Normal).

(** A statement that reads the local variables. *)
Definition reading (k : L -> Stmt L R) : Stmt L R := fun l => k l l.

(** [if (b) { s }] *)
Definition when (b : bool) (s : Stmt L R) : Stmt L R :=
if b then s else skip.

Definition handle (c : Completion R) (handler : Error -> Stmt L R) : Stmt L R :=
match c with
| Throw e => handler e
| other => fun l => ([], l, other)
end.

(** [try { body } catch (e) { handler e }] *)
Definition try_catch (body : Stmt L R) (handler : Error -> Stmt L R) : Stmt L R :=
fun l =>
  let '(t1, l1, c1) := body l in
  let '(t2, l2, c2) := handle c1 handler l1 in
  (t1 ++ t2, l2, c2).

(** [try { body } finally { fin }]: an abrupt completion of [fin]
  replaces the completion of [body]. *)
Definition try_finally (body fin : Stmt L R) : Stmt L R :=
fun l =>
  let '(t1, l1, c1) := body l in
  let '(t2, l2, c2) := fin l1 in
  (t1 ++ t2, l2, match c2 with Normal => c1 | abrupt => abrupt end).

(** [try { body } catch (e) { handler e } finally { fin }] *)
Definition try_catch_finally (body : Stmt L R) (handler : Error -> Stmt L R)
  (fin : Stmt L R) : Stmt L R :=
try_finally (try_catch body handler) fin.

(** An async function with body [body], awaited by its caller; a body
  that falls off its end gives [undefined]. *)
Definition func (locals : L) (undefined : R) (body : Stmt L R) : Eff R :=
match body locals with
| (t, _, Normal) => (t, Ok undefined)
| (t, _, Return r) => (t, Ok r)
| (t, _, Throw e) => (t, Err e)
end.

End Statements.
End Js.

Arguments Js.skip {L R}.
Arguments Js.return_ {L R} v.
Arguments Js.assign {L R} f.

Declare Scope stmt_scope.
Delimit Scope stmt_scope with stmt.
Notation "'const' x ':=' 'await' m ';' k" := (Js.await m (fun x => k))
  (at level 10, x name, m at level 99, k at level 200) : stmt_scope.
Notation "'const' x ':=' 'eval' m ';' k" := (Js.await m (fun x => k))
  (at level 10, x name, m at level 99, k at level 200) : stmt_scope.
Notation "'await' m ';' k" := (Js.await m (fun _ => k))
  (at level 10, m at level 99, k at level 200) : stmt_scope.
Notation "s1 ';;;' s2" := (Js.seq s1 s2)
  (at level 190, right associativity) : stmt_scope.

(** A promise that has been created: the value it will settle to.  As an
    object it is truthy whatever it settles to. *)
Inductive Promise (A : Type) : Type := Settles (r : Result A).
Arguments Settles {A} r.

Definition ToBoolean_promise {A} (p : Promise A) : bool := true.

(** Calling an async function without awaiting it: the calls it makes
    before it first suspends are issued at the call site (for
    [isUrlAllowedInRobots] that is its one request), the caller holds a
    promise, and nothing is thrown at the call site. *)
Definition async_call {A} (m : Eff A) : Eff (Promise A) :=
  (fst m, Ok (Settles (snd m))).

(** [Promise.all] on computations already started in this order: all of
    them run; the first rejection in array order is the rejection. *)
Definition Promise_both {A B} (a : Eff A) (b : Eff B) : Eff (A * B) :=
  (fst a ++ fst b,
   match snd a, snd b with
   | Ok x, Ok y => Ok (x, y)
   | Err e, _ => Err e
   | Ok _, Err e => Err e
   end).

Module JsArray.
Section Callbacks.
Variables A B : Type.

(** [xs.map(f)] for a callback that may throw. *)
Fixpoint map (f : A -> Eff B) (xs : list A) : Eff (list B) :=
match xs with
| [] => ret []
| x :: rest => y <- f x ;; ys <- map f rest ;; ret (y :: ys)
end.

(** [xs.filter(f)]: [keep] is the truthiness of what the callback
  returned. *)
Fixpoint filter (keep : A -> Eff bool) (xs : list A) : Eff (list A) :=
match xs with
| [] => ret []
| x :: rest =>
    k <- keep x ;; ys <- filter keep rest ;;
    ret (if k then x :: ys else ys)
end.

(** [xs.flatMap(f)] *)
Fixpoint flatMap (f : A -> Eff (list B)) (xs : list A) : Eff (list B) :=
match xs with
| [] => ret []
| x :: rest => ys <- f x ;; zs <- flatMap f rest ;; ret (ys ++ zs)
end.

End Callbacks.

(** [[...new Set(xs)]]: first occurrences, in insertion order. *)
Fixpoint set_insert (seen : list string) (x : string) : list string :=
  match seen with
  | [] => [x]
  | y :: rest => if String.eqb y x then seen else y :: set_insert rest x
  end.

Definition spread_of_Set (xs : list string) : list string :=
  fold_left set_insert xs [].

End JsArray.

(* ===================================================================== *)
(** ** Data of the crawler (crawler/types.ts, as core.ts uses it) *)
(* ===================================================================== *)

Record Metadata := {
  title : string;
  last_modified : string;        (* 'last-modified' *)
  url : string
}.

Record PageContent := {
  metadata : Metadata;
  html : string
}.

Record CrawlDestination := { s3KeyPrefix : string }.

Record CrawlPageInput := {
  input_baseUrl : string;
  input_path : string;
  input_pathKeywords : option (list string)
}.

Record CrawlContext := {
  contextTableName : string;
  baseUrl : string;
  pathKeywords : option (list string);
  crawlName : string
}.

(** The step's return value, [{}]. *)
Inductive JsObject := EmptyObject.

(** Any object is truthy. *)
Definition truthy_object {A} (o : A) : bool := true.

(* ===================================================================== *)
(** ** The outside world *)
(* ===================================================================== *)

(** What [new URL(...)] exposes to core.ts. *)
Record URL := {
  href : string;
  origin : string;
  pathname : string
}.

(** A [node-fetch] response. *)
Record Response := {
  ok : bool;
  headers_get : string -> option string;
  text : Result string
}.

(** A page after [goto]: what each query made by core.ts gives. *)
Record Page := {
  page_url : string;                                (* page.url() *)
  document_title : Result string;
  document_body_innerHTML : Result string;
  anchors_href : Result (list (option string));     (* getAttribute('href') or null *)
  document_location_href : Result string
}.

Record World := {
  S3_DATA_BUCKET : string;
  (* utils/contextTable *)
  markPathAsVisited_result : string -> string -> Result unit;
  queuePaths_result : string -> list string -> Result unit;
  (* chrome-aws-lambda and puppeteer *)
  executablePath_result : Result string;
  launch_result : string -> Result Browser;
  newPage_result : Browser -> Result unit;
  goto_result : string -> Result Page;
  close_result : Browser -> Result unit;
  (* node-fetch, robots-parser, aws-sdk *)
  fetch_result : string -> string -> Result Response;
  robots_isAllowed : string -> string -> string -> option bool;
  putObject_result : string -> string -> string -> Result unit;
  (* pure library functions *)
  nhm_translate : string -> string;
  JSON_stringify : PageContent -> string;
  encodeURIComponent : string -> string;
  path_join : string -> string -> string;
  URL_new : string -> option string -> Result URL
}.

Section Program.
Variable w : World.

Definition markPathAsVisited (table path : string) : Eff unit :=
  call (EvMarkPathAsVisited table path) (markPathAsVisited_result w table path).

Definition queuePaths (table : string) (paths : list string) : Eff unit :=
  call (EvQueuePaths table paths) (queuePaths_result w table paths).

Definition chrome_executablePath : Eff string :=
  call EvExecutablePath (executablePath_result w).

Definition chrome_puppeteer_launch (executablePath : string) : Eff Browser :=
  call EvLaunch (launch_result w executablePath).

Definition browser_newPage (browser : Browser) : Eff unit :=
  call (EvNewPage browser) (newPage_result w browser).

Definition page_goto (url : string) : Eff Page :=
  call (EvGoto url) (goto_result w url).

Definition browser_close (browser : Browser) : Eff unit :=
  call (EvClose browser) (close_result w browser).

Definition page_evaluate {A} (what : string) (answer : Result A) : Eff A :=
  call (EvEvaluate what) answer.

Definition fetch (method url : string) : Eff Response :=
  call (EvFetch method url) (fetch_result w method url).

Definition s3_putObject (bucket key body : string) : Eff unit :=
  call (EvPutObject bucket key body) (putObject_result w bucket key body).

(** [new URL(s)] and [new URL(s, base)]: synchronous, may throw. *)
Definition new_URL (s : string) (base : option string) : Eff URL :=
  ([], URL_new w s base).

(** [response.text()] *)
Definition response_text (r : Response) : Eff string := ([], text r).

(** [header || ''] *)
Definition or_empty (header : option string) : string :=
  match header with
  | Some h => if JsString.truthy h then h else EmptyString
  | None => EmptyString
  end.

(* ------------------------------------------------------------------- *)
(** *** core.ts *)

(** Lines 16-30.  The [finally] block returns. *)
Definition getLastModified (url : string) : Eff string :=
  Js.func tt EmptyString
    (Js.try_finally
       (const response := await fetch "HEAD" url;
        Js.when (ok response)
          (let lastModifiedHeader := headers_get response "Last-Modified" in
           Js.return_ (or_empty lastModifiedHeader)))
       (Js.return_ EmptyString))%stmt.

(** Lines 43-62. *)
Definition extractContent (page : Page) : Eff PageContent :=
  ' (title, (lastModified, (url, htmlContent))) <-
      Promise_both (page_evaluate "document.title" (document_title page))
     (Promise_both (getLastModified (page_url page))
     (Promise_both (ret (page_url page))
                   (page_evaluate "document.body.innerHTML" (document_body_innerHTML page)))) ;;
  let text := nhm_translate w htmlContent in
  let metadata := {| title := title; last_modified := lastModified; url := url |} in
  ret {| metadata := metadata; html := text |}.

(** Lines 67-78. *)
Definition writePageToS3 (url : string) (content : PageContent)
    (destination : CrawlDestination) : Eff unit :=
  Js.func tt tt
    (Js.when (negb (JsString.truthy (html content)) || negb (truthy_object (metadata content)))
       (await console LogLevel "Page has no content, skipping";
        Js.return_ tt) ;;;
     let documentKey :=
       path_join w (s3KeyPrefix destination) (encodeURIComponent w url ++ ".html")%string in
     await s3_putObject (S3_DATA_BUCKET w) documentKey (JSON_stringify w content);
     await console LogLevel "Written page content to s3";
     Js.skip)%stmt.

(** Lines 98-110. *)
Definition isUrlAllowedInRobots (urlString : string) : Eff bool :=
  Js.func tt true
    (Js.try_catch
       (const url := eval new_URL urlString None;
        let robotsURL := (origin url ++ "/robots.txt")%string in
        const robotsResponse := await fetch "GET" robotsURL;
        const robotsTxt := await response_text robotsResponse;
        let allowed := robots_isAllowed w robotsURL robotsTxt urlString in
        Js.return_ (match allowed with Some b => b | None => false end))
       (fun _ => Js.return_ true))%stmt.

(** The callback of the first [filter], line 125. *)
Definition keep_within (baseUrl : string) (url : option string) : bool :=
  match url with
  | Some u => JsString.truthy u && isUrlWithinBaseWebsite u baseUrl
  | None => false
  end.

(** The callback of [map], lines 125-130. *)
Definition to_absolute (baseUrl relativeUrlBase : string) (url : option string) : Eff string :=
  match url with
  | None => throw "TypeError: Cannot read properties of null"
  | Some url =>
      if JsString.startsWith url baseUrl then ret url
      else u <- new_URL url (Some relativeUrlBase) ;;
           ret (origin u ++ pathname u)%string
  end.

(** The async callback of the second [filter], lines 131-133. *)
Definition robots_and_keywords (keywords : option (list string)) (url : string) : Eff bool :=
  allowed <- isUrlAllowedInRobots url ;;
  ret (allowed && isUrlMatchingSomeKeyword url keywords).

(** Lines 116-134. *)
Definition getLinksToFollow (page : Page) (baseUrl : string)
    (keywords : option (list string)) : Eff (list string) :=
  Js.func tt []
    (const urls := await page_evaluate "a" (anchors_href page);
     const locationHref := await page_evaluate "document.location.href" (document_location_href page);
     let currentPageUrlParts := JsString.split "/" locationHref in
     let relativeUrlBase :=
       JsString.join "/" (JsString.slice 0 (length currentPageUrlParts) currentPageUrlParts) in
     const absolute := eval
       JsArray.map (to_absolute baseUrl relativeUrlBase)
                   (List.filter (keep_within baseUrl) urls);
     const kept := eval
       JsArray.filter
         (fun url => p <- async_call (robots_and_keywords keywords url) ;;
                     ret (ToBoolean_promise p))
         absolute;
     Js.return_ kept)%stmt.

(** The callback of [flatMap], lines 171-178. *)
Definition pathname_or_skip (u : string) : Eff (list string) :=
  Js.func tt []
    (Js.try_catch
       (const parsed := eval new_URL u None;
        Js.return_ [pathname parsed])
       (fun _ =>
          await console WarnLevel "Url was not valid and will be skipped";
          Js.return_ []))%stmt.

(** The [try] block of [extractPageContentAndUrls], lines 152-181. *)
Definition visit (browser : Browser) (input : CrawlPageInput)
    (destination : CrawlDestination) (url : string) : Stmt unit (list string) :=
  (await browser_newPage browser;
   const page := await page_goto url;
   const content := await extractContent page;
   await console LogLevel "Extracted content from page:";
   await writePageToS3 url content destination;
   const links := await getLinksToFollow page (input_baseUrl input) (input_pathKeywords input);
   let discoveredUrls := JsArray.spread_of_Set links in
   await console LogLevel "Discovered urls:";
   const discoveredPaths := eval JsArray.flatMap pathname_or_skip discoveredUrls;
   await console LogLevel "Discovered relative paths:";
   Js.return_ discoveredPaths)%stmt.

(** Lines 145-186. *)
Definition extractPageContentAndUrls (browser : Browser) (input : CrawlPageInput)
    (destination : CrawlDestination) : Eff (list string) :=
  Js.func tt []
    (const parsed := eval new_URL (input_path input) (Some (input_baseUrl input));
     let url := href parsed in
     Js.try_catch
       (visit browser input destination url)
       (fun _ =>
          await console WarnLevel "Could not visit url";
          Js.return_ []))%stmt.

(* ------------------------------------------------------------------- *)
(** *** steps/3_crawlPageAndQueueUrls.ts *)

(** The [try] block, lines 19-45; the local variable is [browser]. *)
Definition crawl_try (path : string) (crawlContext : CrawlContext)
    : Stmt (option Browser) JsObject :=
  (let contextTableName := contextTableName crawlContext in
   let baseUrl := baseUrl crawlContext in
   let pathKeywords := pathKeywords crawlContext in
   let crawlName := crawlName crawlContext in
   await markPathAsVisited contextTableName path;
   await console LogLevel "Marked path as visited.";
   const executablePath := await chrome_executablePath;
   const launched := await chrome_puppeteer_launch executablePath;
   Js.assign (fun _ => Some launched) ;;;
   let destination := {| s3KeyPrefix := crawlName |} in
   const urlPaths := await
     extractPageContentAndUrls launched
       {| input_baseUrl := baseUrl; input_path := path; input_pathKeywords := pathKeywords |}
       destination;
   await console LogLevel "Synced content from";
   await console LogLevel "Queueing new urls to visit";
   await queuePaths contextTableName urlPaths;
   Js.skip)%stmt.

(** The [finally] block, line 50: [browser && await browser.close()]. *)
Definition crawl_finally : Stmt (option Browser) JsObject :=
  Js.reading (fun browser =>
    match browser with
    | Some b => (await browser_close b; Js.skip)%stmt
    | None => Js.skip
    end).

(** Lines 13-54. *)
Definition crawlPageAndQueueUrls (path : string) (crawlContext : CrawlContext)
    : Eff JsObject :=
  Js.func None EmptyObject
    (Js.try_catch_finally
       (crawl_try path crawlContext)
       (fun _ =>
          await console ErrorLevel "Failed to crawl path";
          Js.skip)
       crawl_finally ;;;
     Js.return_ EmptyObject)%stmt.

End Program.

(* ===================================================================== *)
(** ** A concrete site, for evaluating the program *)
(* ===================================================================== *)

Module Example_site.

Definition invalid_url : Error := "TypeError [ERR_INVALID_URL]: Invalid URL".

(** [new URL] on the handful of strings the example needs. *)
Definition url_table : list (string * option string * URL) :=
  [ ("/", Some "https://ex.com",
     {| href := "https://ex.com/"; origin := "https://ex.com"; pathname := "/" |});
    ("/about", Some "https://ex.com/",
     {| href := "https://ex.com/about"; origin := "https://ex.com"; pathname := "/about" |});
    ("https://ex.com/about", None,
     {| href := "https://ex.com/about"; origin := "https://ex.com"; pathname := "/about" |});
    ("https://ex.com/blog/post", None,
     {| href := "https://ex.com/blog/post"; origin := "https://ex.com";
        pathname := "/blog/post" |}) ].

Definition same_base (a b : option string) : bool :=
  match a, b with
  | None, None => true
  | Some x, Some y => String.eqb x y
  | _, _ => false
  end.

Fixpoint lookup_url (table : list (string * option string * URL))
    (s : string) (base : option string) : Result URL :=
  match table with
  | [] => Err invalid_url
  | (s', base', u) :: rest =>
      if String.eqb s s' && same_base base base' then Ok u
      else lookup_url rest s base
  end.

(** The home page: a relative link, a link into the blog, a link to
    another site, an anchor without [href] and an empty [href]. *)
Definition home : Page :=
  {| page_url := "https://ex.com/";
     document_title := Ok "Example";
     document_body_innerHTML := Ok "<h1>Example</h1>";
     anchors_href := Ok [Some "/about"; Some "https://ex.com/blog/post";
                         Some "https://other.com/x"; None; Some ""];
     document_location_href := Ok "https://ex.com/" |}.

Definition last_modified_date : string := "Wed, 21 Oct 2015 07:28:00 GMT".

Definition robots_txt : string := "User-agent: * Disallow: /".

(** HEAD requests succeed and carry a Last-Modified header; robots.txt
    is served and disallows everything. *)
Definition respond (method url : string) : Result Response :=
  if String.eqb method "HEAD" then
    Ok {| ok := true;
          headers_get := fun name =>
            if String.eqb name "Last-Modified" then Some last_modified_date else None;
          text := Ok EmptyString |}
  else
    Ok {| ok := true; headers_get := fun _ => None; text := Ok robots_txt |}.

(** [encodeURIComponent] on the characters of the example's URLs. *)
Fixpoint percent_encode (s : string) : string :=
  match s with
  | EmptyString => EmptyString
  | String c rest =>
      if Ascii.eqb c ":" then ("%3A" ++ percent_encode rest)%string
      else if Ascii.eqb c "/" then ("%2F" ++ percent_encode rest)%string
      else String c (percent_encode rest)
  end.

(** A stand-in for [JSON.stringify] that keeps every field. *)
Definition serialize (content : PageContent) : string :=
  ("{metadata:{title:" ++ title (metadata content) ++
   ",last-modified:" ++ last_modified (metadata content) ++
   ",url:" ++ url (metadata content) ++
   "},html:" ++ html content ++ "}")%string.

(** A world in which every call succeeds. *)
Definition world : World :=
  {| S3_DATA_BUCKET := "data-bucket";
     markPathAsVisited_result := fun _ _ => Ok tt;
     queuePaths_result := fun _ _ => Ok tt;
     executablePath_result := Ok "/opt/bin/chromium";
     launch_result := fun _ => Ok 1;
     newPage_result := fun _ => Ok tt;
     goto_result := fun _ => Ok home;
     close_result := fun _ => Ok tt;
     fetch_result := respond;
     robots_isAllowed := fun _ _ _ => Some false;
     putObject_result := fun _ _ _ => Ok tt;
     nhm_translate := fun markup => markup;
     JSON_stringify := serialize;
     encodeURIComponent := percent_encode;
     path_join := fun a b => (a ++ "/" ++ b)%string;
     URL_new := lookup_url url_table |}.

Definition context : CrawlContext :=
  {| contextTableName := "crawl-context";
     baseUrl := "https://ex.com";
     pathKeywords := Some ["blog"];
     crawlName := "example" |}.

Definition store_down : Error := "ProvisionedThroughputExceededException".

(** The same world with one oracle replaced. *)
Definition with_markPathAsVisited (r : Result unit) (w : World) : World :=
  {| S3_DATA_BUCKET := S3_DATA_BUCKET w;
     markPathAsVisited_result := fun _ _ => r;
     queuePaths_result := queuePaths_result w;
     executablePath_result := executablePath_result w;
     launch_result := launch_result w;
     newPage_result := newPage_result w;
     goto_result := goto_result w;
     close_result := close_result w;
     fetch_result := fetch_result w;
     robots_isAllowed := robots_isAllowed w;
     putObject_result := putObject_result w;
     nhm_translate := nhm_translate w;
     JSON_stringify := JSON_stringify w;
     encodeURIComponent := encodeURIComponent w;
     path_join := path_join w;
     URL_new := URL_new w |}.

Definition with_goto (r : Result Page) (w : World) : World :=
  {| S3_DATA_BUCKET := S3_DATA_BUCKET w;
     markPathAsVisited_result := markPathAsVisited_result w;
     queuePaths_result := queuePaths_result w;
     executablePath_result := executablePath_result w;
     launch_result := launch_result w;
     newPage_result := newPage_result w;
     goto_result := fun _ => r;
     close_result := close_result w;
     fetch_result := fetch_result w;
     robots_isAllowed := robots_isAllowed w;
     putObject_result := putObject_result w;
     nhm_translate := nhm_translate w;
     JSON_stringify := JSON_stringify w;
     encodeURIComponent := encodeURIComponent w;
     path_join := path_join w;
     URL_new := URL_new w |}.

Definition with_putObject (r : Result unit) (w : World) : World :=
  {| S3_DATA_BUCKET := S3_DATA_BUCKET w;
     markPathAsVisited_result := markPathAsVisited_result w;
     queuePaths_result := queuePaths_result w;
     executablePath_result := executablePath_result w;
     launch_result := launch_result w;
     newPage_result := newPage_result w;
     goto_result := goto_result w;
     close_result := close_result w;
     fetch_result := fetch_result w;
     robots_isAllowed := robots_isAllowed w;
     putObject_result := fun _ _ _ => r;
     nhm_translate := nhm_translate w;
     JSON_stringify := JSON_stringify w;
     encodeURIComponent := encodeURIComponent w;
     path_join := path_join w;
     URL_new := URL_new w |}.

Definition with_queuePaths (r : Result unit) (w : World) : World :=
  {| S3_DATA_BUCKET := S3_DATA_BUCKET w;
     markPathAsVisited_result := markPathAsVisited_result w;
     queuePaths_result := fun _ _ => r;
     executablePath_result := executablePath_result w;
     launch_result := launch_result w;
     newPage_result := newPage_result w;
     goto_result := goto_result w;
     close_result := close_result w;
     fetch_result := fetch_result w;
     robots_isAllowed := robots_isAllowed w;
     putObject_result := putObject_result w;
     nhm_translate := nhm_translate w;
     JSON_stringify := JSON_stringify w;
     encodeURIComponent := encodeURIComponent w;
     path_join := path_join w;
     URL_new := URL_new w |}.

End Example_site.

(* ===================================================================== *)
(** ** Claims of the specification, as propositions about the code *)
(* ===================================================================== *)

(** Events that launch the browser or work against the page. *)
Definition touches_page (ev : Event) : bool :=
  match ev with
  | EvExecutablePath | EvLaunch | EvNewPage _ | EvGoto _
  | EvEvaluate _ | EvFetch _ _ => true
  | _ => false
  end.

(** The answer the world gave to a call on the frontier store or on the
    blob store. *)
Definition store_answer (w : World) (ev : Event) : option (Result unit) :=
  match ev with
  | EvMarkPathAsVisited table path => Some (markPathAsVisited_result w table path)
  | EvQueuePaths table paths => Some (queuePaths_result w table paths)
  | EvPutObject bucket key body => Some (putObject_result w bucket key body)
  | _ => None
  end.

(** Some store call of the trace failed with [e]. *)
Definition store_failure (w : World) (t : list Event) (e : Error) : Prop :=
  exists ev, In ev t /\ store_answer w ev = Some (Err e).

(** The call of this event, if it was a store call, did not fail. *)
Definition answered (w : World) (ev : Event) : Prop :=
  forall e, store_answer w ev <> Some (Err e).

(** Where the two [catch] blocks report. *)
Definition step_caught : Event := EvConsole ErrorLevel "Failed to crawl path".
Definition visit_caught : Event := EvConsole WarnLevel "Could not visit url".

(** Section 7 of the specification: a store failure during the step
    reaches the scheduler. *)
Definition store_failures_propagate : Prop :=
  forall w path crawlContext e,
    store_failure w (trace (crawlPageAndQueueUrls w path crawlContext)) e ->
    result (crawlPageAndQueueUrls w path crawlContext) = Err e.

(** Navigation ([newPage], [goto]) or extraction ([extractContent]) fails
    for the page at [url]. *)
Definition navigation_or_extraction_fails (w : World) (browser : Browser) (url : string) : Prop :=
  (exists e, newPage_result w browser = Err e) \/
  (exists e, goto_result w url = Err e) \/
  (exists page e, goto_result w url = Ok page /\ result (extractContent w page) = Err e).

Definition is_putObject (ev : Event) : bool :=
  match ev with EvPutObject _ _ _ => true | _ => false end.

(** Section 4.2 of the specification: a page whose navigation or extraction
    fails gives no links, and the step around it returns normally. *)
Definition page_failures_never_abort : Prop :=
  forall w path crawlContext browser parsed,
    URL_new w path (Some (baseUrl crawlContext)) = Ok parsed ->
    navigation_or_extraction_fails w browser (href parsed) ->
    result (extractPageContentAndUrls w browser
              {| input_baseUrl := baseUrl crawlContext; input_path := path;
                 input_pathKeywords := pathKeywords crawlContext |}
              {| s3KeyPrefix := crawlName crawlContext |}) = Ok [] /\
    result (crawlPageAndQueueUrls w path crawlContext) = Ok EmptyObject.

(* ===================================================================== *)
(** ** Vocabulary for further properties of the code *)
(* ===================================================================== *)

(** An upper-case ASCII letter. *)
Definition is_upper (c : ascii) : bool :=
  let n := nat_of_ascii c in (65 <=? n) && (n <=? 90).

Fixpoint contains_upper (s : string) : bool :=
  match s with
  | EmptyString => false
  | String c rest => is_upper c || contains_upper rest
  end.

(** The request [isUrlAllowedInRobots] issues for one link: none when the
    link does not parse. *)
Definition robots_request (w : World) (link : string) : list Event :=
  match URL_new w link None with
  | Ok parsed => [EvFetch "GET" (origin parsed ++ "/robots.txt")%string]
  | Err _ => []
  end.

(** What [new URL(link).pathname] contributes to the discovered paths. *)
Definition pathname_of (w : World) (link : string) : list string :=
  match URL_new w link None with
  | Ok parsed => [pathname parsed]
  | Err _ => []
  end.

(** Calls made on the page, over HTTP, on the blob store or the console. *)
Definition extractor_event (ev : Event) : bool :=
  match ev with
  | EvNewPage _ | EvGoto _ | EvEvaluate _ | EvFetch _ _
  | EvPutObject _ _ _ | EvConsole _ _ => true
  | _ => false
  end.

Module Example_failures.

(** The example site with a Chromium that does not start. *)
Definition launch_failed : Error := "Failed to launch the browser process".

Definition world_without_browser : World :=
  {| S3_DATA_BUCKET := S3_DATA_BUCKET Example_site.world;
     markPathAsVisited_result := markPathAsVisited_result Example_site.world;
     queuePaths_result := queuePaths_result Example_site.world;
     executablePath_result := executablePath_result Example_site.world;
     launch_result := fun _ => Err launch_failed;
     newPage_result := newPage_result Example_site.world;
     goto_result := goto_result Example_site.world;
     close_result := fun _ => Err "Protocol error: Target closed";
     fetch_result := fetch_result Example_site.world;
     robots_isAllowed := robots_isAllowed Example_site.world;
     putObject_result := putObject_result Example_site.world;
     nhm_translate := nhm_translate Example_site.world;
     JSON_stringify := JSON_stringify Example_site.world;
     encodeURIComponent := encodeURIComponent Example_site.world;
     path_join := path_join Example_site.world;
     URL_new := URL_new Example_site.world |}.

(** The example site where nothing can be fetched over HTTP. *)
Definition world_offline : World :=
  {| S3_DATA_BUCKET := S3_DATA_BUCKET Example_site.world;
     markPathAsVisited_result := markPathAsVisited_result Example_site.world;
     queuePaths_result := queuePaths_result Example_site.world;
     executablePath_result := executablePath_result Example_site.world;
     launch_result := launch_result Example_site.world;
     newPage_result := newPage_result Example_site.world;
     goto_result := goto_result Example_site.world;
     close_result := close_result Example_site.world;
     fetch_result := fun _ _ => Err "FetchError: ENOTFOUND";
     robots_isAllowed := robots_isAllowed Example_site.world;
     putObject_result := putObject_result Example_site.world;
     nhm_translate := nhm_translate Example_site.world;
     JSON_stringify := JSON_stringify Example_site.world;
     encodeURIComponent := encodeURIComponent Example_site.world;
     path_join := path_join Example_site.world;
     URL_new := URL_new Example_site.world |}.

(** The example site where the page does not load and the browser then
    fails to close. *)
Definition target_closed : Error := "Protocol error: Target closed".

Definition world_page_and_close_fail : World :=
  {| S3_DATA_BUCKET := S3_DATA_BUCKET Example_site.world;
     markPathAsVisited_result := markPathAsVisited_result Example_site.world;
     queuePaths_result := queuePaths_result Example_site.world;
     executablePath_result := executablePath_result Example_site.world;
     launch_result := launch_result Example_site.world;
     newPage_result := newPage_result Example_site.world;
     goto_result := fun _ => Err "net::ERR_NAME_NOT_RESOLVED";
     close_result := fun _ => Err target_closed;
     fetch_result := fetch_result Example_site.world;
     robots_isAllowed := robots_isAllowed Example_site.world;
     putObject_result := putObject_result Example_site.world;
     nhm_translate := nhm_translate Example_site.world;
     JSON_stringify := JSON_stringify Example_site.world;
     encodeURIComponent := encodeURIComponent Example_site.world;
     path_join := path_join Example_site.world;
     URL_new := URL_new Example_site.world |}.

(** A page with one link that [new URL] rejects next to a good one. *)
Definition page_with_bad_link : Page :=
  {| page_url := "https://ex.com/";
     document_title := Ok "Example";
     document_body_innerHTML := Ok "<h1>Example</h1>";
     anchors_href := Ok [Some "/about"; Some "//"];
     document_location_href := Ok "https://ex.com/" |}.

End Example_failures.

(* --------------------------------------------------------------------- *)
(** *** The completion step, [completeCrawl] *)

Module CompleteCrawl.

(** The crawl context as this step reads it: the fields above and the
    crawl id. *)
Record Context := {
  crawl : CrawlContext;
  crawlId : string
}.

Inductive CleanupEvent : Type :=
| EvLog (message : string)
| EvDeleteQueuedPathsFromS3 (crawlContext : Context)
| EvDeleteContextTable (contextTableName : string)
| EvUpdateHistoryEntry (crawlId endTimestamp : string).

(** [utils/queuedPaths], [utils/contextTable], [utils/historyTable] and
    the clock. *)
Record CleanupWorld := {
  deleteQueuedPathsFromS3_result : Context -> Result unit;
  deleteContextTable_result : string -> Result unit;
  updateHistoryEntry_result : string -> string -> Result unit;
  Date_toISOString : string
}.

Definition Run (A : Type) : Type := list CleanupEvent * Result A.

(** [await m; k] *)
Definition andThen {A B} (m : Run A) (k : A -> Run B) : Run B :=
  match m with
  | (t1, Ok a) => let (t2, r) := k a in (t1 ++ t2, r)
  | (t1, Err e) => (t1, Err e)
  end.

Definition log (message : string) : Run unit := ([EvLog message], Ok tt).

(** The body of [completeCrawl]: three awaited calls between console
    lines, outside any [try]. *)
Definition completeCrawl (w : CleanupWorld) (crawlContext : Context) : Run JsObject :=
  andThen (log "Deleting queuedPaths file from S3") (fun _ =>
  andThen ([EvDeleteQueuedPathsFromS3 crawlContext],
           deleteQueuedPathsFromS3_result w crawlContext) (fun _ =>
  andThen (log "Deleting context table") (fun _ =>
  andThen ([EvDeleteContextTable (contextTableName (crawl crawlContext))],
           deleteContextTable_result w (contextTableName (crawl crawlContext))) (fun _ =>
  andThen (log "Writing end timestamp to history table") (fun _ =>
  let endTimestamp := Date_toISOString w in
  andThen ([EvUpdateHistoryEntry (crawlId crawlContext) endTimestamp],
           updateHistoryEntry_result w (crawlId crawlContext) endTimestamp) (fun _ =>
  andThen (log "Crawl complete!") (fun _ =>
  ([], Ok EmptyObject)))))))).

(** A crawl whose working file is already gone. *)
Definition example_context : Context :=
  {| crawl := Example_site.context; crawlId := "crawl-1" |}.

Definition world_file_missing : CleanupWorld :=
  {| deleteQueuedPathsFromS3_result := fun _ => Err "NoSuchKey";
     deleteContextTable_result := fun _ => Ok tt;
     updateHistoryEntry_result := fun _ _ => Ok tt;
     Date_toISOString := "2024-01-01T00:00:00.000Z" |}.

Definition world_all_good : CleanupWorld :=
  {| deleteQueuedPathsFromS3_result := fun _ => Ok tt;
     deleteContextTable_result := fun _ => Ok tt;
     updateHistoryEntry_result := fun _ _ => Ok tt;
     Date_toISOString := "2024-01-01T00:00:00.000Z" |}.

End CompleteCrawl.

(* ===================================================================== *)
(** ** The link filter's predicates *)
(* ===================================================================== *)

Section Link_filter.

(** The three classifications listed in section 8 of the specification. *)
Example same_site_examples :
  isUrlWithinBaseWebsite "/about" "https://ex.com" = true /\
  isUrlWithinBaseWebsite "https://ex.com/x" "https://ex.com" = true /\
  isUrlWithinBaseWebsite "https://other.com/x" "https://ex.com" = false.
Proof. repeat split. Qed.

(** On candidates that start with [http] exactly when they carry a scheme,
    the code and the specification's wording agree. *)
Lemma same_site_agrees_on_http (url baseUrl : string) :
  SpecWords.hasScheme url = JsString.startsWith url "http" ->
  isUrlWithinBaseWebsite url baseUrl = SpecWords.sameSite url baseUrl.
Proof.
  intros Hscheme. unfold isUrlWithinBaseWebsite, SpecWords.sameSite.
  now rewrite Hscheme.
Qed.

(** C6: the same-site test looks for the four letters [http], not for a
    scheme: an absolute [ftp:] or [mailto:] link that does not start with
    the base URL is classified same-site, although it has a scheme and
    the base URL is not its prefix; a relative link whose first segment
    starts with [http] is rejected. *)
Theorem isUrlWithinBaseWebsite_accepts_other_schemes :
  isUrlWithinBaseWebsite "ftp://other.com/x" "https://ex.com" = true /\
  SpecWords.sameSite "ftp://other.com/x" "https://ex.com" = false /\
  isUrlWithinBaseWebsite "mailto:team@ex.com" "https://ex.com" = true /\
  SpecWords.sameSite "mailto:team@ex.com" "https://ex.com" = false /\
  isUrlWithinBaseWebsite "http-status.html" "https://ex.com" = false /\
  SpecWords.sameSite "http-status.html" "https://ex.com" = true.
Proof. repeat split. Qed.

(** The two keyword behaviours the specification lists. *)
Example keyword_examples :
  isUrlMatchingSomeKeyword "https://ex.com/blog/post" (Some ["blog"]) = true /\
  isUrlMatchingSomeKeyword "https://ex.com/Blog/post" (Some ["blog"]) = true.
Proof. split; reflexivity. Qed.

Lemma no_keywords_match_everything (url : string) :
  isUrlMatchingSomeKeyword url None = true /\
  isUrlMatchingSomeKeyword url (Some []) = true.
Proof. split; reflexivity. Qed.

Lemma existsb_agree {A} (f g : A -> bool) (xs : list A) :
  Forall (fun x => f x = g x) xs -> existsb f xs = existsb g xs.
Proof.
  induction 1 as [|x xs Hx _ IH]; simpl.
  - reflexivity.
  - now rewrite Hx, IH.
Qed.

(** When every keyword is already in lower case the code computes the
    case-insensitive match of the specification. *)
Lemma keyword_match_agrees_on_lower_case (url : string) (kws : list string) :
  Forall (fun k => JsString.toLowerCase k = k) kws ->
  isUrlMatchingSomeKeyword url (Some kws) = SpecWords.matchesSomeKeyword url (Some kws).
Proof.
  intros Hlower. destruct kws as [|k kws]; [reflexivity|].
  unfold isUrlMatchingSomeKeyword, SpecWords.matchesSomeKeyword.
  change (length (k :: kws) =? 0) with false. rewrite orb_false_l.
  apply existsb_agree.
  eapply Forall_impl; [|exact Hlower].
  intros kw Hkw. unfold SpecWords.includes_ci. now rewrite Hkw.
Qed.

(** C7: only the URL is lower-cased, the keyword is compared as it was
    given: the keyword [Blog] does not match a URL that contains [blog],
    although it is a case-insensitive substring of it. *)
Theorem isUrlMatchingSomeKeyword_misses_upper_case_keyword :
  isUrlMatchingSomeKeyword "https://ex.com/blog/post" (Some ["Blog"]) = false /\
  SpecWords.matchesSomeKeyword "https://ex.com/blog/post" (Some ["Blog"]) = true.
Proof. split; reflexivity. Qed.

End Link_filter.

(* ===================================================================== *)
(** ** The page extractor *)
(* ===================================================================== *)

(** Whatever the HEAD request gives, the [finally] block has the last word. *)
Lemma getLastModified_always_empty (w : World) (url : string) :
  getLastModified w url = ([EvFetch "HEAD" url], Ok EmptyString).
Proof.
  unfold getLastModified, Js.func, Js.try_finally, Js.await, fetch, call.
  destruct (fetch_result w "HEAD" url) as [response|e]; [|reflexivity].
  unfold Js.when. destruct (ok response); reflexivity.
Qed.

(** The sub-fetch cannot fail the extraction: [extractContent] fails only
    when reading the title or the body fails. *)
Lemma extractContent_eq (w : World) (page : Page) :
  extractContent w page =
  ([EvEvaluate "document.title"; EvFetch "HEAD" (page_url page);
    EvEvaluate "document.body.innerHTML"],
   match document_title page, document_body_innerHTML page with
   | Ok t, Ok body =>
       Ok {| metadata := {| title := t; last_modified := EmptyString;
                            url := page_url page |};
             html := nhm_translate w body |}
   | Err e, _ => Err e
   | Ok _, Err e => Err e
   end).
Proof.
  unfold extractContent. rewrite getLastModified_always_empty.
  unfold Promise_both, page_evaluate, call, ret, bind. simpl.
  destruct (document_title page), (document_body_innerHTML page); reflexivity.
Qed.

(** C3: the HEAD request of the example site succeeds and carries a
    Last-Modified header, yet the extracted metadata has the empty string
    in its place. *)
Theorem extractContent_drops_last_modified :
  (exists response,
     fetch_result Example_site.world "HEAD" (page_url Example_site.home) = Ok response /\
     ok response = true /\
     headers_get response "Last-Modified" = Some Example_site.last_modified_date) /\
  exists content,
    result (extractContent Example_site.world Example_site.home) = Ok content /\
    last_modified (metadata content) = EmptyString.
Proof.
  split.
  - eexists. repeat split.
  - eexists. split; reflexivity.
Qed.

(* ===================================================================== *)
(** ** Link discovery *)
(* ===================================================================== *)

Lemma split_not_empty (sep : ascii) (s : string) : JsString.split sep s <> [].
Proof.
  destruct s as [|c rest]; simpl; [discriminate|].
  destruct (Ascii.eqb c sep); [discriminate|].
  destruct (JsString.split sep rest); discriminate.
Qed.

Lemma join_split (sep : ascii) (s : string) :
  JsString.join (String sep EmptyString) (JsString.split sep s) = s.
Proof.
  induction s as [|c rest IH]; simpl; [reflexivity|].
  destruct (Ascii.eqb_spec c sep) as [->|_].
  - pose proof (split_not_empty sep rest) as Hparts.
    destruct (JsString.split sep rest) as [|h t]; [now contradiction Hparts|].
    simpl. simpl in IH. now rewrite IH.
  - pose proof (split_not_empty sep rest) as Hparts.
    destruct (JsString.split sep rest) as [|h t]; [now contradiction Hparts|].
    simpl in *. destruct t; simpl in *; now rewrite <- IH.
Qed.

Lemma slice_join_split (locationHref : string) :
  let parts := JsString.split "/" locationHref in
  JsString.join "/" (JsString.slice 0 (length parts) parts) = locationHref.
Proof.
  cbv zeta. unfold JsString.slice. rewrite Nat.sub_0_r. simpl skipn.
  rewrite firstn_all. apply join_split.
Qed.

(** A [filter] whose callback always comes back truthy keeps the array. *)
Lemma filter_truthy_keeps_all {A} (keep : A -> Eff bool) (xs : list A) :
  (forall x, snd (keep x) = Ok true) ->
  result (JsArray.filter keep xs) = Ok xs.
Proof.
  intros Htruthy. induction xs as [|x xs IH]; simpl.
  - reflexivity.
  - specialize (Htruthy x). destruct (keep x) as [t1 r1]. simpl in Htruthy. subst r1.
    unfold result in IH. destruct (JsArray.filter keep xs) as [t2 r2].
    simpl in IH. subst r2. reflexivity.
Qed.

(** The callback of the second [filter] hands back a promise. *)
Lemma async_filter_callback_truthy (w : World) (keywords : option (list string)) (url : string) :
  snd (p <- async_call (robots_and_keywords w keywords url) ;; ret (ToBoolean_promise p)) = Ok true.
Proof.
  unfold async_call, bind, ret. simpl.
  destruct (robots_and_keywords w keywords url); reflexivity.
Qed.

(** The result of [getLinksToFollow] is what [map] produced: neither the
    robots policy nor the keywords remove anything. *)
Lemma getLinksToFollow_result (w : World) (page : Page) (baseUrl : string)
    (keywords : option (list string)) :
  result (getLinksToFollow w page baseUrl keywords) =
  match anchors_href page, document_location_href page with
  | Ok urls, Ok locationHref =>
      let parts := JsString.split "/" locationHref in
      result (JsArray.map
                (to_absolute w baseUrl
                   (JsString.join "/" (JsString.slice 0 (length parts) parts)))
                (List.filter (keep_within baseUrl) urls))
  | Err e, _ => Err e
  | Ok _, Err e => Err e
  end.
Proof.
  unfold getLinksToFollow, Js.func, Js.await, page_evaluate, call, result.
  destruct (anchors_href page) as [urls|e]; [|reflexivity].
  destruct (document_location_href page) as [locationHref|e]; [|reflexivity].
  cbv zeta.
  destruct (JsArray.map _ _) as [t1 [absolute|e]]; [|reflexivity].
  pose proof (filter_truthy_keeps_all _ absolute (async_filter_callback_truthy w keywords)) as Hkept.
  unfold result in Hkept.
  destruct (JsArray.filter _ absolute) as [t2 r2]. simpl in Hkept. subst r2.
  reflexivity.
Qed.

(** Every link that is returned did pass the same-site test before it was
    made absolute. *)
Lemma keep_within_same_site (baseUrl : string) (urls : list (option string)) (href : option string) :
  In href (List.filter (keep_within baseUrl) urls) ->
  exists u, href = Some u /\ isUrlWithinBaseWebsite u baseUrl = true.
Proof.
  intros Hin. apply filter_In in Hin. destruct Hin as [_ Hkeep].
  destruct href as [u|]; [|discriminate].
  exists u. split; [reflexivity|].
  unfold keep_within in Hkeep. now apply andb_true_iff in Hkeep.
Qed.

(** C1: on the example site robots.txt disallows every URL and the only
    keyword is [blog]; the link to [/about] fails both checks and is
    returned all the same. *)
Theorem getLinksToFollow_ignores_robots_and_keywords :
  result (isUrlAllowedInRobots Example_site.world "https://ex.com/about") = Ok false /\
  isUrlMatchingSomeKeyword "https://ex.com/about" (Some ["blog"]) = false /\
  result (getLinksToFollow Example_site.world Example_site.home
            "https://ex.com" (Some ["blog"]))
  = Ok ["https://ex.com/about"; "https://ex.com/blog/post"].
Proof. repeat split. Qed.

(* ===================================================================== *)
(** ** Persistence *)
(* ===================================================================== *)

(** The two runs of [writePageToS3]. *)
Lemma writePageToS3_eq (w : World) (pageUrl : string) (content : PageContent)
    (destination : CrawlDestination) :
  writePageToS3 w pageUrl content destination =
  if JsString.truthy (html content) then
    let key := path_join w (s3KeyPrefix destination)
                 (encodeURIComponent w pageUrl ++ ".html")%string in
    match putObject_result w (S3_DATA_BUCKET w) key (JSON_stringify w content) with
    | Ok _ => ([EvPutObject (S3_DATA_BUCKET w) key (JSON_stringify w content);
                EvConsole LogLevel "Written page content to s3"], Ok tt)
    | Err e => ([EvPutObject (S3_DATA_BUCKET w) key (JSON_stringify w content)], Err e)
    end
  else ([EvConsole LogLevel "Page has no content, skipping"], Ok tt).
Proof.
  unfold writePageToS3, Js.func, Js.seq, Js.when, Js.await, s3_putObject, console, call,
    truthy_object.
  destruct (JsString.truthy (html content)); simpl; [|reflexivity].
  destruct (putObject_result w _ _ _); reflexivity.
Qed.

Lemma truthy_nonempty (s : string) : JsString.truthy s = true <-> s <> EmptyString.
Proof.
  destruct s; simpl; split; intros H; try reflexivity; try discriminate.
  now contradiction H.
Qed.

(** C8: [writePageToS3] issues a put exactly when the extracted text is
    not empty, and that put goes to the data bucket under the key that
    joins the destination prefix (the crawl name) to the URL-encoded page
    URL followed by [.html], with the serialized content as body. *)
Theorem writePageToS3_puts_iff_content (w : World) (pageUrl : string)
    (content : PageContent) (destination : CrawlDestination)
    (bucket key body : string) :
  In (EvPutObject bucket key body) (trace (writePageToS3 w pageUrl content destination))
  <->
  html content <> EmptyString /\
  bucket = S3_DATA_BUCKET w /\
  key = path_join w (s3KeyPrefix destination)
          (encodeURIComponent w pageUrl ++ ".html")%string /\
  body = JSON_stringify w content.
Proof.
  rewrite writePageToS3_eq, <- truthy_nonempty.
  destruct (JsString.truthy (html content)); cbv zeta.
  - destruct (putObject_result w _ _ _); simpl; split.
    + intros [Hput|[Hlog|[]]]; [|discriminate]. inversion Hput. repeat split.
    + intros (_ & -> & -> & ->). now left.
    + intros [Hput|[]]. inversion Hput. repeat split.
    + intros (_ & -> & -> & ->). now left.
  - simpl. split.
    + intros [Hlog|[]]. discriminate.
    + intros (Hfalse & _). discriminate.
Qed.

(** The step hands the crawl name to [writePageToS3] as the key prefix:
    on the example site the page is stored under [example/...]. *)
Example crawl_stores_under_crawl_name :
  In (EvPutObject "data-bucket" "example/https%3A%2F%2Fex.com%2F.html"
        "{metadata:{title:Example,last-modified:,url:https://ex.com/},html:<h1>Example</h1>}")
     (trace (crawlPageAndQueueUrls Example_site.world "/" Example_site.context)).
Proof. vm_compute. tauto. Qed.

(* ===================================================================== *)
(** ** The step: crawlPageAndQueueUrls *)
(* ===================================================================== *)

(** The run of the step when its first call fails. *)
Lemma crawl_when_mark_visited_fails_aux (w : World) (path : string)
    (crawlContext : CrawlContext) (e : Error) :
  markPathAsVisited_result w (contextTableName crawlContext) path = Err e ->
  crawlPageAndQueueUrls w path crawlContext =
  ([EvMarkPathAsVisited (contextTableName crawlContext) path;
    EvConsole ErrorLevel "Failed to crawl path"],
   Ok EmptyObject).
Proof.
  intros Hfail.
  unfold crawlPageAndQueueUrls, Js.func, Js.seq, Js.try_catch_finally, Js.try_finally,
    Js.try_catch, crawl_try, Js.await, markPathAsVisited, call.
  rewrite Hfail. reflexivity.
Qed.

(** C9: when [markPathAsVisited] throws, the step logs the error and
    returns [{}]: the whole run is the failed call and the console line, so
    no browser is launched, nothing is fetched and nothing is queued. *)
Theorem crawl_when_mark_visited_fails (w : World) (path : string)
    (crawlContext : CrawlContext) (e : Error) :
  markPathAsVisited_result w (contextTableName crawlContext) path = Err e ->
  result (crawlPageAndQueueUrls w path crawlContext) = Ok EmptyObject /\
  trace (crawlPageAndQueueUrls w path crawlContext) =
    [EvMarkPathAsVisited (contextTableName crawlContext) path;
     EvConsole ErrorLevel "Failed to crawl path"] /\
  (forall ev, In ev (trace (crawlPageAndQueueUrls w path crawlContext)) ->
     touches_page ev = false /\
     (forall table paths, ev <> EvQueuePaths table paths) /\
     (forall b, ev <> EvClose b)).
Proof.
  intros Hfail. rewrite (crawl_when_mark_visited_fails_aux w path crawlContext Hfail).
  split; [reflexivity|]. split; [reflexivity|].
  intros ev [<-|[<-|[]]]; repeat split; discriminate.
Qed.

Lemma crawl_when_mark_visited_fails_witness :
  let w := Example_site.with_markPathAsVisited (Err Example_site.store_down) Example_site.world in
  markPathAsVisited_result w "crawl-context" "/" = Err Example_site.store_down /\
  result (crawlPageAndQueueUrls w "/" Example_site.context) = Ok EmptyObject.
Proof.
  intros w. split; [reflexivity|].
  apply (crawl_when_mark_visited_fails w "/" Example_site.context (e := Example_site.store_down)).
  reflexivity.
Defined.

(** A statement that starts by awaiting a call starts its trace with it. *)
Lemma await_call_first {L R A} (ev : Event) (answer : Result A) (k : A -> Stmt L R) (l : L) :
  exists rest, fst (fst (Js.await (call ev answer) k l)) = ev :: rest.
Proof.
  unfold Js.await, call. destruct answer as [a|e].
  - destruct (k a l) as [[t l'] c]. simpl. now eexists.
  - simpl. now eexists.
Qed.

Lemma crawl_try_first (w : World) (path : string) (crawlContext : CrawlContext)
    (l : option Browser) :
  exists rest,
    fst (fst (crawl_try w path crawlContext l)) =
    EvMarkPathAsVisited (contextTableName crawlContext) path :: rest.
Proof. unfold crawl_try, markPathAsVisited. cbv zeta. apply await_call_first. Qed.

(** The first call of the step is [markPathAsVisited]. *)
Lemma crawl_first (w : World) (path : string) (crawlContext : CrawlContext) :
  exists rest,
    trace (crawlPageAndQueueUrls w path crawlContext) =
    EvMarkPathAsVisited (contextTableName crawlContext) path :: rest.
Proof.
  destruct (crawl_try_first w path crawlContext None) as [rest Hfirst].
  unfold crawlPageAndQueueUrls, trace, Js.func, Js.seq, Js.try_catch_finally,
    Js.try_finally, Js.try_catch.
  destruct (crawl_try w path crawlContext None) as [[t1 l1] c1]. simpl in Hfirst. subst t1.
  destruct (Js.handle c1 _ l1) as [[t2 l2] c2].
  destruct (crawl_finally w l2) as [[t3 l3] c3].
  destruct c3, c2; simpl; now eexists.
Qed.

(** C2: in the trace of every run of the step, whatever launches the
    browser or works against the page (executable lookup, launch, new
    page, navigation, DOM queries, HTTP requests) comes after the call to
    [markPathAsVisited] for this path, which is the first call of the run
    and has succeeded. *)
Theorem mark_visited_precedes_fetch (w : World) (path : string)
    (crawlContext : CrawlContext) (pre post : list Event) (ev : Event) :
  trace (crawlPageAndQueueUrls w path crawlContext) = pre ++ ev :: post ->
  touches_page ev = true ->
  (exists pre', pre = EvMarkPathAsVisited (contextTableName crawlContext) path :: pre') /\
  markPathAsVisited_result w (contextTableName crawlContext) path = Ok tt.
Proof.
  intros Htrace Htouch. split.
  - destruct (crawl_first w path crawlContext) as [rest Hfirst].
    rewrite Hfirst in Htrace. destruct pre as [|first pre'].
    + simpl in Htrace. inversion Htrace; subst. discriminate.
    + simpl in Htrace. inversion Htrace; subst. now eexists.
  - destruct (markPathAsVisited_result w (contextTableName crawlContext) path)
      as [[]|e] eqn:Hmark; [reflexivity|exfalso].
    rewrite (crawl_when_mark_visited_fails_aux w path crawlContext Hmark) in Htrace.
    assert (Hin : In ev [EvMarkPathAsVisited (contextTableName crawlContext) path;
                         EvConsole ErrorLevel "Failed to crawl path"]).
    { simpl in Htrace. rewrite Htrace. apply in_or_app. right. now left. }
    destruct Hin as [<-|[<-|[]]]; discriminate.
Qed.

Lemma mark_visited_precedes_fetch_witness :
  let run := crawlPageAndQueueUrls Example_site.world "/" Example_site.context in
  let pre := [EvMarkPathAsVisited "crawl-context" "/";
              EvConsole LogLevel "Marked path as visited."; EvExecutablePath] in
  (trace run = pre ++ EvLaunch :: skipn 4 (trace run) /\ touches_page EvLaunch = true) /\
  (exists pre', pre = EvMarkPathAsVisited "crawl-context" "/" :: pre') /\
  markPathAsVisited_result Example_site.world "crawl-context" "/" = Ok tt.
Proof.
  intros run pre. split; [split; reflexivity|].
  apply (mark_visited_precedes_fetch Example_site.world "/" Example_site.context
           pre (skipn 4 (trace run)) EvLaunch); reflexivity.
Defined.

(** The only error the step can hand to its caller is one thrown by
    [browser.close()] in the [finally] block. *)
Lemma crawl_result (w : World) (path : string) (crawlContext : CrawlContext) :
  result (crawlPageAndQueueUrls w path crawlContext) = Ok EmptyObject \/
  exists b e, close_result w b = Err e /\
              result (crawlPageAndQueueUrls w path crawlContext) = Err e.
Proof.
  unfold crawlPageAndQueueUrls, result, Js.func, Js.seq, Js.try_catch_finally,
    Js.try_finally, Js.try_catch.
  destruct (crawl_try w path crawlContext None) as [[t1 l1] c1].
  assert (Hhandled : exists t2 c2,
             Js.handle c1
               (fun _ : Error =>
                  (await console ErrorLevel "Failed to crawl path"; Js.skip)%stmt) l1
             = (t2, l1, c2) /\ forall e, c2 <> Throw e).
  { destruct c1; simpl; do 2 eexists; split; try reflexivity; discriminate. }
  destruct Hhandled as (t2 & c2 & -> & Hc2).
  unfold crawl_finally, Js.reading. destruct l1 as [b|]; simpl.
  - unfold browser_close, call. destruct (close_result w b) as [[]|e] eqn:Hclose; simpl.
    + left. destruct c2 as [|[]|e]; try reflexivity. now contradiction (Hc2 e).
    + right. now exists b, e.
  - left. destruct c2 as [|[]|e]; try reflexivity. now contradiction (Hc2 e).
Qed.

Lemma crawl_returns_when_close_succeeds (w : World) (path : string)
    (crawlContext : CrawlContext) :
  (forall b, close_result w b = Ok tt) ->
  result (crawlPageAndQueueUrls w path crawlContext) = Ok EmptyObject.
Proof.
  intros Hclose. destruct (crawl_result w path crawlContext) as [Hok|(b & e & Hfail & _)].
  - exact Hok.
  - rewrite Hclose in Hfail. discriminate.
Qed.

(** C4, as the specification states it, fails: with a frontier store that
    rejects [markPathAsVisited], the step returns [{}]. *)
Lemma store_failures_do_not_propagate : ~ store_failures_propagate.
Proof.
  intros Hpropagate.
  specialize (Hpropagate
    (Example_site.with_markPathAsVisited (Err Example_site.store_down) Example_site.world)
    "/" Example_site.context Example_site.store_down).
  assert (Hreturned : Ok EmptyObject = Err Example_site.store_down :> Result JsObject).
  { apply Hpropagate. exists (EvMarkPathAsVisited "crawl-context" "/").
    split; [now left|reflexivity]. }
  discriminate Hreturned.
Qed.

(** *** Where a failed store call is caught *)

Section Trace_invariants.
Variable P : Event -> Prop.

Lemma bind_all {A B} (m : Eff A) (k : A -> Eff B) :
  Forall P (fst m) -> (forall a, Forall P (fst (k a))) -> Forall P (fst (bind m k)).
Proof.
  intros Hm Hk. unfold bind. destruct m as [t1 [a|e]]; simpl in *.
  - specialize (Hk a). destruct (k a) as [t2 r]. simpl in *. now apply Forall_app.
  - exact Hm.
Qed.

Lemma await_all {L R A} (m : Eff A) (k : A -> Stmt L R) (l : L) :
  Forall P (fst m) -> (forall a, Forall P (fst (fst (k a l)))) ->
  Forall P (fst (fst (Js.await m k l))).
Proof.
  intros Hm Hk. unfold Js.await. destruct m as [t1 [a|e]]; simpl in *.
  - specialize (Hk a). destruct (k a l) as [[t2 l2] c]. simpl in *. now apply Forall_app.
  - exact Hm.
Qed.

Lemma try_catch_all {L R} (body : Stmt L R) (handler : Error -> Stmt L R) (l : L) :
  Forall P (fst (fst (body l))) ->
  (forall e l', Forall P (fst (fst (handler e l')))) ->
  Forall P (fst (fst (Js.try_catch body handler l))).
Proof.
  intros Hbody Hhandler. unfold Js.try_catch.
  destruct (body l) as [[t1 l1] c1]. simpl in Hbody.
  assert (Hhandle : Forall P (fst (fst (Js.handle c1 handler l1)))).
  { destruct c1; simpl; auto. }
  destruct (Js.handle c1 handler l1) as [[t2 l2] c2]. simpl in *. now apply Forall_app.
Qed.

Lemma func_all {L R} (l : L) (undefined : R) (body : Stmt L R) :
  Forall P (fst (fst (body l))) -> Forall P (fst (Js.func l undefined body)).
Proof.
  unfold Js.func. destruct (body l) as [[t l'] c]. now destruct c.
Qed.

Lemma map_all {A B} (f : A -> Eff B) (xs : list A) :
  (forall x, Forall P (fst (f x))) -> Forall P (fst (JsArray.map f xs)).
Proof.
  intros Hf. induction xs as [|x xs IH]; simpl.
  - constructor.
  - apply bind_all; [apply Hf|]. intros y. apply bind_all; [exact IH|]. intros ys. constructor.
Qed.

Lemma filter_all {A} (keep : A -> Eff bool) (xs : list A) :
  (forall x, Forall P (fst (keep x))) -> Forall P (fst (JsArray.filter keep xs)).
Proof.
  intros Hkeep. induction xs as [|x xs IH]; simpl.
  - constructor.
  - apply bind_all; [apply Hkeep|]. intros y. apply bind_all; [exact IH|]. intros ys. constructor.
Qed.

Lemma flatMap_all {A B} (f : A -> Eff (list B)) (xs : list A) :
  (forall x, Forall P (fst (f x))) -> Forall P (fst (JsArray.flatMap f xs)).
Proof.
  intros Hf. induction xs as [|x xs IH]; simpl.
  - constructor.
  - apply bind_all; [apply Hf|]. intros y. apply bind_all; [exact IH|]. intros ys. constructor.
Qed.

End Trace_invariants.

Lemma answered_console (w : World) (level : ConsoleLevel) (message : string) :
  answered w (EvConsole level message).
Proof. intros e. discriminate. Qed.

Lemma answered_evaluate (w : World) (what : string) : answered w (EvEvaluate what).
Proof. intros e. discriminate. Qed.

Lemma answered_fetch (w : World) (method target : string) : answered w (EvFetch method target).
Proof. intros e. discriminate. Qed.

Create HintDb crawler.
#[local] Hint Resolve answered_console answered_evaluate answered_fetch : crawler.
#[local] Hint Constructors Forall : crawler.

Lemma isUrlAllowedInRobots_answered (w : World) (urlString : string) :
  Forall (answered w) (fst (isUrlAllowedInRobots w urlString)).
Proof.
  unfold isUrlAllowedInRobots, Js.func, Js.try_catch, Js.await, new_URL, fetch, call,
    response_text.
  destruct (URL_new w urlString None) as [parsed|e]; simpl; auto with crawler.
  destruct (fetch_result w "GET" _) as [response|e]; simpl; auto with crawler.
  destruct (text response); simpl; auto with crawler.
Qed.

Lemma getLinksToFollow_answered (w : World) (page : Page) (base : string)
    (keywords : option (list string)) :
  Forall (answered w) (fst (getLinksToFollow w page base keywords)).
Proof.
  unfold getLinksToFollow. apply func_all.
  apply await_all; [simpl; auto with crawler|intros urls].
  apply await_all; [simpl; auto with crawler|intros locationHref]. cbv zeta.
  apply await_all.
  { apply map_all. intros [u|]; simpl; [|constructor].
    destruct (JsString.startsWith u base); simpl; [constructor|].
    unfold new_URL. destruct (URL_new w u _); simpl; constructor. }
  intros absolute. apply await_all; [|intros kept; constructor].
  apply filter_all. intros u. apply bind_all; [|intros p; constructor].
  unfold async_call, robots_and_keywords. simpl.
  apply bind_all; [apply isUrlAllowedInRobots_answered|intros allowed; constructor].
Qed.

Lemma pathname_or_skip_answered (w : World) (u : string) :
  Forall (answered w) (fst (pathname_or_skip w u)).
Proof.
  unfold pathname_or_skip, Js.func, Js.try_catch, Js.await, new_URL.
  destruct (URL_new w u None); simpl; auto with crawler.
Qed.

(** Awaiting a computation that either made no failing store call or threw,
    then a continuation of which the same holds. *)
Lemma await_answered_or_throws (w : World) {L R A} (m : Eff A) (k : A -> Stmt L R) (l : L) :
  Forall (answered w) (fst m) \/ (exists e, snd m = Err e) ->
  (forall a, Forall (answered w) (fst (fst (k a l))) \/ exists e, snd (k a l) = Throw e) ->
  Forall (answered w) (fst (fst (Js.await m k l))) \/ exists e, snd (Js.await m k l) = Throw e.
Proof.
  intros Hm Hk. unfold Js.await. destruct m as [t1 [a|e]]; simpl in *.
  - destruct Hm as [Hm|[e He]]; [|discriminate].
    specialize (Hk a). destruct (k a l) as [[t2 l2] c]. simpl in *.
    destruct Hk as [Hk|Hk]; [left; now apply Forall_app|now right].
  - right. now exists e.
Qed.

Lemma writePageToS3_answered_or_throws (w : World) (pageUrl : string)
    (content : PageContent) (destination : CrawlDestination) :
  Forall (answered w) (fst (writePageToS3 w pageUrl content destination)) \/
  exists e, snd (writePageToS3 w pageUrl content destination) = Err e.
Proof.
  rewrite writePageToS3_eq. destruct (JsString.truthy (html content)); cbv zeta.
  - destruct (putObject_result w _ _ _) as [[]|e] eqn:Hput; simpl.
    + left. repeat constructor; auto with crawler.
      intros e. simpl. rewrite Hput. discriminate.
    + right. now exists e.
  - left. simpl. auto with crawler.
Qed.

(** A run of the [try] block of [extractPageContentAndUrls] in which a
    store call failed ends by throwing. *)
Lemma visit_answered_or_throws (w : World) (browser : Browser) (input : CrawlPageInput)
    (destination : CrawlDestination) (pageUrl : string) :
  Forall (answered w) (fst (fst (visit w browser input destination pageUrl tt))) \/
  exists e, snd (visit w browser input destination pageUrl tt) = Throw e.
Proof.
  unfold visit.
  apply await_answered_or_throws.
  { left. repeat constructor. intros e. discriminate. }
  intros _. apply await_answered_or_throws.
  { left. repeat constructor. intros e. discriminate. }
  intros page. apply await_answered_or_throws.
  { left. rewrite extractContent_eq. simpl. auto 6 with crawler. }
  intros content. apply await_answered_or_throws.
  { left. simpl. auto with crawler. }
  intros _. apply await_answered_or_throws.
  { apply writePageToS3_answered_or_throws. }
  intros _. left.
  apply await_all; [apply getLinksToFollow_answered|intros links]. cbv zeta.
  apply await_all; [simpl; auto with crawler|intros _].
  apply await_all; [apply flatMap_all, pathname_or_skip_answered|intros paths].
  apply await_all; [simpl; auto with crawler|intros _]. constructor.
Qed.

Lemma store_failure_not_answered (w : World) (t : list Event) (e : Error) :
  store_failure w t e -> Forall (answered w) t -> False.
Proof.
  intros (ev & Hin & Hfail) Hall.
  rewrite Forall_forall in Hall. exact (Hall ev Hin e Hfail).
Qed.

(** A store call that fails inside [extractPageContentAndUrls] is reported
    by the function's own [catch]. *)
Lemma extract_store_failure_caught (w : World) (browser : Browser) (input : CrawlPageInput)
    (destination : CrawlDestination) (e : Error) :
  store_failure w (trace (extractPageContentAndUrls w browser input destination)) e ->
  In visit_caught (trace (extractPageContentAndUrls w browser input destination)).
Proof.
  unfold extractPageContentAndUrls, trace, Js.func, Js.await, new_URL.
  destruct (URL_new w (input_path input) (Some (input_baseUrl input))) as [parsed|e0].
  - cbv zeta. unfold Js.try_catch.
    pose proof (visit_answered_or_throws w browser input destination (href parsed)) as Hvisit.
    destruct (visit w browser input destination (href parsed) tt) as [[t1 l1] c1].
    simpl in Hvisit. destruct Hvisit as [Hall|[e1 ->]].
    + intros Hfailure. exfalso. apply (store_failure_not_answered Hfailure).
      destruct c1; simpl; rewrite ?app_nil_r; try exact Hall.
      apply Forall_app. split; [exact Hall|]. auto with crawler.
    + intros _. simpl. apply in_or_app. right. now left.
  - simpl. intros (ev & [] & _).
Qed.

(** A store call that failed in the [try] block of the step either made the
    block throw or was reported by [extractPageContentAndUrls]. *)
Lemma crawl_try_store_failure (w : World) (path : string) (crawlContext : CrawlContext)
    (l : option Browser) (e : Error) :
  store_failure w (fst (fst (crawl_try w path crawlContext l))) e ->
  (exists e', snd (crawl_try w path crawlContext l) = Throw e') \/
  In visit_caught (fst (fst (crawl_try w path crawlContext l))).
Proof.
  unfold crawl_try, Js.await, Js.seq, Js.assign, markPathAsVisited, console,
    chrome_executablePath, chrome_puppeteer_launch, queuePaths, call, Js.skip.
  cbv zeta.
  destruct (markPathAsVisited_result w _ path) as [[]|e1] eqn:Hmark; [|left; now eexists].
  destruct (executablePath_result w) as [exe|e1]; [|left; now eexists].
  destruct (launch_result w exe) as [b|e1]; [|left; now eexists].
  pose proof (@extract_store_failure_caught w b
    {| input_baseUrl := baseUrl crawlContext; input_path := path;
       input_pathKeywords := pathKeywords crawlContext |}
    {| s3KeyPrefix := crawlName crawlContext |} e) as Hextract.
  destruct (extractPageContentAndUrls w b _ _) as [te [paths|e1]]; [|left; now eexists].
  destruct (queuePaths_result w _ paths) as [[]|e1] eqn:Hqueue; [|left; now eexists].
  simpl. intros (ev & Hin & Hfail). right. do 4 right.
  apply in_or_app. left. apply Hextract. exists ev. split; [|exact Hfail].
  destruct Hin as [<-|[<-|[<-|[<-|Hin]]]]; simpl in Hfail; try discriminate.
  - congruence.
  - apply in_app_or in Hin. destruct Hin as [Hin|[<-|[<-|[<-|[]]]]]; simpl in Hfail;
      try discriminate; [exact Hin|congruence].
Qed.

(** A failed store call during the step is reported by one of the two
    [catch] blocks. *)
Lemma crawl_store_failure_caught (w : World) (path : string) (crawlContext : CrawlContext)
    (e : Error) :
  store_failure w (trace (crawlPageAndQueueUrls w path crawlContext)) e ->
  In step_caught (trace (crawlPageAndQueueUrls w path crawlContext)) \/
  In visit_caught (trace (crawlPageAndQueueUrls w path crawlContext)).
Proof.
  pose proof (@crawl_try_store_failure w path crawlContext None e) as Htry.
  unfold crawlPageAndQueueUrls, trace, Js.func, Js.seq, Js.try_catch_finally,
    Js.try_finally, Js.try_catch.
  destruct (crawl_try w path crawlContext None) as [[t1 l1] c1]. simpl in Htry.
  intros Hfailure.
  destruct c1 as [|r|e1]; [right|right|left].
  1,2: assert (Hin : In visit_caught t1);
       [ destruct Htry as [[e' He']|Hin]; [|discriminate|exact Hin];
         destruct Hfailure as (ev & Hin & Hfail); exists ev; split; [|exact Hfail];
         revert Hin; destruct l1 as [b|]; simpl; unfold call;
         [destruct (close_result w b)|]; simpl; rewrite ?app_nil_r; intros Hin;
         try exact Hin; apply in_app_or in Hin; destruct Hin as [Hin|[<-|[]]];
         try exact Hin; discriminate
       | destruct l1 as [b|]; simpl; unfold call; [destruct (close_result w b)|]; simpl;
         rewrite ?app_nil_r; try exact Hin; apply in_or_app; now left ].
  clear Htry Hfailure.
  destruct l1 as [b|]; simpl; unfold call; [destruct (close_result w b)|]; simpl;
    unfold step_caught; rewrite ?in_app_iff; simpl; tauto.
Qed.

(** C4, amended: when a call to [markPathAsVisited], to [queuePaths] or to
    the blob store fails during the step, the error is handled inside the
    step: one of the two [catch] blocks reports it on the console, and the
    step returns [{}] to the scheduler as long as closing the browser
    succeeds. *)
Theorem store_failures_are_swallowed (w : World) (path : string)
    (crawlContext : CrawlContext) (e : Error) :
  store_failure w (trace (crawlPageAndQueueUrls w path crawlContext)) e ->
  (forall b, close_result w b = Ok tt) ->
  result (crawlPageAndQueueUrls w path crawlContext) = Ok EmptyObject /\
  (In step_caught (trace (crawlPageAndQueueUrls w path crawlContext)) \/
   In visit_caught (trace (crawlPageAndQueueUrls w path crawlContext))).
Proof.
  intros Hfailure Hclose. split.
  - now apply crawl_returns_when_close_succeeds.
  - eapply crawl_store_failure_caught. exact Hfailure.
Qed.

Lemma store_failures_are_swallowed_witness :
  let w := Example_site.with_putObject (Err Example_site.store_down) Example_site.world in
  let run := crawlPageAndQueueUrls w "/" Example_site.context in
  store_failure w (trace run) Example_site.store_down /\
  result run = Ok EmptyObject /\
  (In step_caught (trace run) \/ In visit_caught (trace run)).
Proof.
  intros w run.
  assert (Hfailure : store_failure w (trace run) Example_site.store_down).
  { exists (EvPutObject "data-bucket" "example/https%3A%2F%2Fex.com%2F.html"
              (Example_site.serialize
                 {| metadata := {| title := "Example"; last_modified := EmptyString;
                                   url := "https://ex.com/" |};
                    html := "<h1>Example</h1>" |})).
    split; [vm_compute; tauto|reflexivity]. }
  split; [exact Hfailure|].
  apply (@store_failures_are_swallowed w "/" Example_site.context
           Example_site.store_down Hfailure).
  reflexivity.
Defined.

(* ===================================================================== *)
(** ** Failures of a single page *)
(* ===================================================================== *)

(** The run of [extractPageContentAndUrls] once the URL is resolved. *)
Lemma extract_after_url (w : World) (browser : Browser) (input : CrawlPageInput)
    (destination : CrawlDestination) (parsed : URL) :
  URL_new w (input_path input) (Some (input_baseUrl input)) = Ok parsed ->
  extractPageContentAndUrls w browser input destination =
  match visit w browser input destination (href parsed) tt with
  | (t, _, Normal) => (t, Ok [])
  | (t, _, Return paths) => (t, Ok paths)
  | (t, _, Throw _) => (t ++ [visit_caught], Ok [])
  end.
Proof.
  intros Hurl. unfold extractPageContentAndUrls, Js.func, Js.await, new_URL.
  rewrite Hurl. cbv zeta. unfold Js.try_catch.
  destruct (visit w browser input destination (href parsed) tt) as [[t1 l1] [|paths|e]];
    simpl; rewrite ?app_nil_r; reflexivity.
Qed.

(** Navigation and extraction fail before anything is written. *)
Lemma visit_when_page_fails (w : World) (browser : Browser) (input : CrawlPageInput)
    (destination : CrawlDestination) (pageUrl : string) :
  navigation_or_extraction_fails w browser pageUrl ->
  exists t e,
    visit w browser input destination pageUrl tt = (t, tt, Throw e) /\
    existsb is_putObject t = false.
Proof.
  intros Hfails. unfold visit, Js.await, browser_newPage, page_goto, call.
  destruct (newPage_result w browser) as [[]|e1] eqn:HnewPage; [|now do 2 eexists].
  destruct (goto_result w pageUrl) as [page|e2] eqn:Hgoto; [|now do 2 eexists].
  destruct Hfails as [[e He]|[[e He]|(page' & e & Hpage & Hextract)]]; try congruence.
  assert (page' = page) as -> by congruence. revert Hextract. rewrite extractContent_eq. unfold result. simpl.
  destruct (document_title page), (document_body_innerHTML page); intros Hextract;
    try discriminate; now do 2 eexists.
Qed.

(** C5, as the specification states it, fails: when the page does not
    load and [browser.close()] then rejects in the [finally] block, the
    extraction gives the empty list but the step throws the error of
    [close] instead of returning [{}]. *)
Lemma page_failure_can_abort_the_step : ~ page_failures_never_abort.
Proof.
  intros Hnever.
  destruct (Hnever Example_failures.world_page_and_close_fail "/" Example_site.context 1
              {| href := "https://ex.com/"; origin := "https://ex.com"; pathname := "/" |}
              eq_refl)
    as [_ Hreturned].
  - right. left. now eexists.
  - assert (Hthrown :
              result (crawlPageAndQueueUrls Example_failures.world_page_and_close_fail "/"
                        Example_site.context)
              = Err Example_failures.target_closed) by reflexivity.
    rewrite Hthrown in Hreturned. discriminate Hreturned.
Qed.

(** C5, amended: when navigation or content extraction fails for a page,
    [extractPageContentAndUrls] catches the failure: it returns the empty
    list and has issued no write to the blob store; and, provided closing
    the browser in the [finally] block succeeds, the step returns [{}]
    normally. *)
Theorem page_failure_is_contained (w : World) (path : string)
    (crawlContext : CrawlContext) (browser : Browser) (parsed : URL) :
  let input := {| input_baseUrl := baseUrl crawlContext; input_path := path;
                  input_pathKeywords := pathKeywords crawlContext |} in
  let destination := {| s3KeyPrefix := crawlName crawlContext |} in
  URL_new w path (Some (baseUrl crawlContext)) = Ok parsed ->
  navigation_or_extraction_fails w browser (href parsed) ->
  result (extractPageContentAndUrls w browser input destination) = Ok [] /\
  existsb is_putObject (trace (extractPageContentAndUrls w browser input destination)) = false /\
  ((forall b, close_result w b = Ok tt) ->
   result (crawlPageAndQueueUrls w path crawlContext) = Ok EmptyObject).
Proof.
  intros input destination Hurl Hfails.
  destruct (visit_when_page_fails input destination Hfails) as (t & e & Hvisit & Hquiet).
  rewrite (extract_after_url w browser input destination Hurl), Hvisit.
  repeat split.
  - unfold trace. simpl. rewrite existsb_app, Hquiet. reflexivity.
  - apply crawl_returns_when_close_succeeds.
Qed.

Lemma page_failure_is_contained_witness :
  let w := Example_site.with_goto (Err "net::ERR_NAME_NOT_RESOLVED") Example_site.world in
  let input := {| input_baseUrl := "https://ex.com"; input_path := "/";
                  input_pathKeywords := Some ["blog"] |} in
  let destination := {| s3KeyPrefix := "example" |} in
  navigation_or_extraction_fails w 1 "https://ex.com/" /\
  result (extractPageContentAndUrls w 1 input destination) = Ok [] /\
  existsb is_putObject (trace (extractPageContentAndUrls w 1 input destination)) = false /\
  result (crawlPageAndQueueUrls w "/" Example_site.context) = Ok EmptyObject.
Proof.
  intros w input destination.
  assert (Hurl : URL_new w "/" (Some "https://ex.com")
                 = Ok {| href := "https://ex.com/"; origin := "https://ex.com";
                         pathname := "/" |}) by reflexivity.
  assert (Hfails : navigation_or_extraction_fails w 1 "https://ex.com/").
  { right. left. now eexists. }
  split; [exact Hfails|].
  destruct (@page_failure_is_contained w "/" Example_site.context 1 _ Hurl Hfails)
    as (Hempty & Hquiet & Hstep).
  split; [exact Hempty|]. split; [exact Hquiet|].
  apply Hstep. reflexivity.
Defined.


(** On the example site the path [//] does not resolve: the function
    throws, and the step's own [catch] takes over. *)
Example extract_throws_on_invalid_url :
  extractPageContentAndUrls Example_site.world 1
    {| input_baseUrl := "https://ex.com"; input_path := "//"; input_pathKeywords := None |}
    {| s3KeyPrefix := "example" |}
  = ([], Err Example_site.invalid_url).
Proof. reflexivity. Qed.

(* ===================================================================== *)
(** ** Further properties of the link filter *)
(* ===================================================================== *)

Lemma prefix_empty (s : string) : String.prefix EmptyString s = true.
Proof. destruct s; reflexivity. Qed.

Lemma prefix_append (p s : string) : String.prefix p (p ++ s)%string = true.
Proof.
  induction p as [|c p IH]; simpl; [apply prefix_empty|].
  destruct (ascii_dec c c) as [_|Hneq]; [exact IH|now contradiction Hneq].
Qed.

(** X2: The same-site test is a test on strings, not on hosts: whatever is
    appended to the base URL, the result is classified same-site; and with
    an empty base URL every candidate is. *)
Theorem isUrlWithinBaseWebsite_any_extension (baseUrl rest : string) :
  isUrlWithinBaseWebsite (baseUrl ++ rest)%string baseUrl = true /\
  isUrlWithinBaseWebsite rest EmptyString = true.
Proof.
  unfold isUrlWithinBaseWebsite, JsString.startsWith. split.
  - rewrite prefix_append. apply orb_true_r.
  - rewrite prefix_empty. apply orb_true_r.
Qed.

Lemma lower_ascii_idempotent (c : ascii) :
  JsString.lower_ascii (JsString.lower_ascii c) = JsString.lower_ascii c.
Proof.
  destruct c as [[] [] [] [] [] [] [] []]; reflexivity.
Qed.

Lemma toLowerCase_idempotent (s : string) :
  JsString.toLowerCase (JsString.toLowerCase s) = JsString.toLowerCase s.
Proof.
  induction s as [|c s IH]; simpl; [reflexivity|].
  now rewrite lower_ascii_idempotent, IH.
Qed.

(** X3: The case of the URL never matters to the keyword test. *)
Theorem keyword_match_ignores_url_case (pageUrl : string) (keywords : option (list string)) :
  isUrlMatchingSomeKeyword (JsString.toLowerCase pageUrl) keywords =
  isUrlMatchingSomeKeyword pageUrl keywords.
Proof.
  unfold isUrlMatchingSomeKeyword. destruct keywords as [kws|]; [|reflexivity].
  now rewrite toLowerCase_idempotent.
Qed.

Lemma lower_ascii_not_upper (c : ascii) : is_upper (JsString.lower_ascii c) = false.
Proof.
  destruct c as [[] [] [] [] [] [] [] []]; reflexivity.
Qed.

Lemma toLowerCase_no_upper (s : string) : contains_upper (JsString.toLowerCase s) = false.
Proof.
  induction s as [|c s IH]; simpl; [reflexivity|].
  now rewrite lower_ascii_not_upper, IH.
Qed.

Lemma prefix_contains_upper (p s : string) :
  String.prefix p s = true -> contains_upper p = true -> contains_upper s = true.
Proof.
  revert s. induction p as [|c p IH]; intros s Hprefix Hupper; [discriminate|].
  destruct s as [|d s]; [discriminate|]. simpl in Hprefix, Hupper.
  destruct (ascii_dec c d) as [<-|_]; [|discriminate].
  simpl. apply orb_true_iff in Hupper. apply orb_true_iff.
  destruct Hupper as [Hc|Hp]; [now left|right; now apply IH].
Qed.

Lemma includes_contains_upper (s sub : string) :
  JsString.includes s sub = true -> contains_upper sub = true -> contains_upper s = true.
Proof.
  induction s as [|c s IH]; simpl; intros Hincludes Hupper.
  - rewrite orb_false_r in Hincludes.
    exact (prefix_contains_upper sub EmptyString Hincludes Hupper).
  - apply orb_true_iff in Hincludes. destruct Hincludes as [Hprefix|Hrest].
    + exact (prefix_contains_upper sub (String c s) Hprefix Hupper).
    + apply orb_true_iff. right. now apply IH.
Qed.

(** X4: A keyword list in which every keyword has an upper-case letter rejects
    every URL. *)
Theorem upper_case_keywords_match_nothing (pageUrl : string) (kws : list string) :
  kws <> [] ->
  Forall (fun keyword => contains_upper keyword = true) kws ->
  isUrlMatchingSomeKeyword pageUrl (Some kws) = false.
Proof.
  intros Hnonempty Hupper. unfold isUrlMatchingSomeKeyword.
  destruct kws as [|k kws]; [now contradiction Hnonempty|].
  change (length (k :: kws) =? 0) with false. rewrite orb_false_l.
  apply not_true_is_false. intros Hsome.
  apply existsb_exists in Hsome. destruct Hsome as (keyword & Hin & Hincludes).
  rewrite Forall_forall in Hupper.
  pose proof (includes_contains_upper _ _ Hincludes (Hupper keyword Hin)) as Habsurd.
  rewrite toLowerCase_no_upper in Habsurd. discriminate.
Qed.

Lemma upper_case_keywords_match_nothing_witness :
  (["Blog"; "NEWS"] <> [] /\
   Forall (fun keyword => contains_upper keyword = true) ["Blog"; "NEWS"]) /\
  isUrlMatchingSomeKeyword "https://ex.com/blog/news" (Some ["Blog"; "NEWS"]) = false.
Proof.
  assert (Hnonempty : ["Blog"; "NEWS"] <> []) by discriminate.
  assert (Hupper : Forall (fun keyword => contains_upper keyword = true) ["Blog"; "NEWS"]).
  { repeat constructor. }
  split; [split; assumption|].
  exact (@upper_case_keywords_match_nothing "https://ex.com/blog/news" _ Hnonempty Hupper).
Defined.

(** X5: An empty keyword in the list matches every URL. *)
Theorem empty_keyword_matches_everything (pageUrl : string) (kws : list string) :
  In EmptyString kws -> isUrlMatchingSomeKeyword pageUrl (Some kws) = true.
Proof.
  intros Hin. unfold isUrlMatchingSomeKeyword. apply orb_true_iff. right.
  apply existsb_exists. exists EmptyString. split; [exact Hin|].
  destruct (JsString.toLowerCase pageUrl); reflexivity.
Qed.

Lemma empty_keyword_matches_everything_witness :
  In EmptyString ["blog"; EmptyString] /\
  isUrlMatchingSomeKeyword "https://ex.com/about" (Some ["blog"; EmptyString]) = true.
Proof.
  assert (Hin : In EmptyString ["blog"; EmptyString]) by (right; now left).
  split; [exact Hin|].
  exact (@empty_keyword_matches_everything "https://ex.com/about" _ Hin).
Defined.

(* ===================================================================== *)
(** ** Further properties of the page extractor *)
(* ===================================================================== *)

(** X6: [getLastModified] never throws and never returns a date: whether the
    request is rejected, answered with an error status, or answered with
    or without the header, it issues one HEAD request and gives the empty
    string. *)
Theorem getLastModified_never_throws (w : World) (pageUrl : string) :
  result (getLastModified w pageUrl) = Ok EmptyString /\
  trace (getLastModified w pageUrl) = [EvFetch "HEAD" pageUrl].
Proof. now rewrite getLastModified_always_empty. Qed.

(** X7: [extractContent] succeeds exactly when both the title and the body can
    be read; the content then carries the title, the page's own URL and
    the translated body. *)
Theorem extractContent_succeeds_iff (w : World) (page : Page) (content : PageContent) :
  result (extractContent w page) = Ok content <->
  exists pageTitle body,
    document_title page = Ok pageTitle /\
    document_body_innerHTML page = Ok body /\
    content = {| metadata := {| title := pageTitle; last_modified := EmptyString;
                                url := page_url page |};
                 html := nhm_translate w body |}.
Proof.
  rewrite extractContent_eq. unfold result. simpl.
  destruct (document_title page) as [t|e1], (document_body_innerHTML page) as [b|e2]; split.
  - intros Hok. injection Hok as <-. now exists t, b.
  - intros (t' & b' & Ht & Hb & ->). injection Ht as <-. injection Hb as <-. reflexivity.
  - discriminate.
  - intros (t' & b' & _ & Hb & _). discriminate.
  - discriminate.
  - intros (t' & b' & Ht & _). discriminate.
  - discriminate.
  - intros (t' & b' & Ht & _). discriminate.
Qed.

(** X8: Whatever the page gives, [extractContent] queries the title, requests
    the headers and queries the body: a failure to read the title does not
    stop the other two calls. *)
Theorem extractContent_always_three_calls (w : World) (page : Page) :
  trace (extractContent w page) =
  [EvEvaluate "document.title"; EvFetch "HEAD" (page_url page);
   EvEvaluate "document.body.innerHTML"].
Proof. now rewrite extractContent_eq. Qed.

(** X9: [writePageToS3] throws exactly when there is content to write and the
    blob store rejects the write, and it throws the store's error. *)
Theorem writePageToS3_throws_iff (w : World) (pageUrl : string) (content : PageContent)
    (destination : CrawlDestination) (e : Error) :
  result (writePageToS3 w pageUrl content destination) = Err e <->
  html content <> EmptyString /\
  putObject_result w (S3_DATA_BUCKET w)
    (path_join w (s3KeyPrefix destination) (encodeURIComponent w pageUrl ++ ".html")%string)
    (JSON_stringify w content) = Err e.
Proof.
  rewrite writePageToS3_eq, <- truthy_nonempty.
  destruct (JsString.truthy (html content)); cbv zeta.
  - destruct (putObject_result w _ _ _) as [[]|e']; unfold result; simpl; split.
    + discriminate.
    + intros [_ Habsurd]. discriminate.
    + intros Herr. injection Herr as <-. now split.
    + intros [_ Herr]. exact Herr.
  - unfold result. simpl. split; [discriminate|]. intros [Habsurd _]. discriminate.
Qed.

(* ===================================================================== *)
(** ** Further properties of the robots check *)
(* ===================================================================== *)

(** The run of [isUrlAllowedInRobots], case by case. *)
Lemma isUrlAllowedInRobots_eq (w : World) (link : string) :
  isUrlAllowedInRobots w link =
  (robots_request w link,
   match URL_new w link None with
   | Err _ => Ok true
   | Ok parsed =>
       let robotsURL := (origin parsed ++ "/robots.txt")%string in
       match fetch_result w "GET" robotsURL with
       | Err _ => Ok true
       | Ok response =>
           match text response with
           | Err _ => Ok true
           | Ok robotsTxt =>
               match robots_isAllowed w robotsURL robotsTxt link with
               | Some allowed => Ok allowed
               | None => Ok false
               end
           end
       end
   end).
Proof.
  unfold isUrlAllowedInRobots, robots_request, Js.func, Js.try_catch, Js.await, new_URL,
    fetch, call, response_text.
  destruct (URL_new w link None) as [parsed|e]; [|reflexivity]. cbv zeta.
  destruct (fetch_result w "GET" _) as [response|e]; [|reflexivity].
  destruct (text response) as [robotsTxt|e]; [|reflexivity].
  destruct (robots_isAllowed w _ robotsTxt link) as [[]|]; reflexivity.
Qed.

(** X10: The robots check fails open: when the link does not parse, when
    robots.txt cannot be requested or when its body cannot be read, the
    link is allowed. *)
Theorem isUrlAllowedInRobots_fails_open (w : World) (link : string) :
  (exists e, URL_new w link None = Err e) \/
  (exists parsed,
     URL_new w link None = Ok parsed /\
     ((exists e, fetch_result w "GET" (origin parsed ++ "/robots.txt")%string = Err e) \/
      (exists response e,
         fetch_result w "GET" (origin parsed ++ "/robots.txt")%string = Ok response /\
         text response = Err e))) ->
  result (isUrlAllowedInRobots w link) = Ok true.
Proof.
  rewrite isUrlAllowedInRobots_eq. unfold result. simpl.
  intros [[e ->]|(parsed & -> & [[e ->]|(response & e & -> & ->)])]; reflexivity.
Qed.

Lemma isUrlAllowedInRobots_fails_open_witness :
  (exists parsed,
     URL_new Example_failures.world_offline "https://ex.com/about" None = Ok parsed /\
     exists e, fetch_result Example_failures.world_offline "GET"
                 (origin parsed ++ "/robots.txt")%string = Err e) /\
  result (isUrlAllowedInRobots Example_failures.world_offline "https://ex.com/about") = Ok true.
Proof.
  split.
  - eexists. split; [reflexivity|]. now eexists.
  - apply isUrlAllowedInRobots_fails_open. right. eexists. split; [reflexivity|].
    left. now eexists.
Defined.

(** X11: The robots check never throws: it allows the link, or it denies it,
    and it denies a link only when the site's robots.txt was fetched and
    read and the parser did not answer [true] for the link. *)
Theorem isUrlAllowedInRobots_denies_only_on_policy (w : World) (link : string) :
  result (isUrlAllowedInRobots w link) = Ok true \/
  (result (isUrlAllowedInRobots w link) = Ok false /\
   exists parsed response robotsTxt,
     URL_new w link None = Ok parsed /\
     fetch_result w "GET" (origin parsed ++ "/robots.txt")%string = Ok response /\
     text response = Ok robotsTxt /\
     robots_isAllowed w (origin parsed ++ "/robots.txt")%string robotsTxt link <> Some true).
Proof.
  rewrite isUrlAllowedInRobots_eq. unfold result. simpl.
  destruct (URL_new w link None) as [parsed|e]; [|now left]. cbv zeta.
  destruct (fetch_result w "GET" _) as [response|e] eqn:Hfetch; [|now left].
  destruct (text response) as [robotsTxt|e] eqn:Htext; [|now left].
  destruct (robots_isAllowed w _ robotsTxt link) as [[]|] eqn:Hallowed; [now left| |];
    right; (split; [reflexivity|]); exists parsed, response, robotsTxt;
    rewrite Hallowed; repeat split; auto; discriminate.
Qed.

(* ===================================================================== *)
(** ** Further properties of link discovery *)
(* ===================================================================== *)

(** X1: Splitting the location at [/], taking the whole slice and joining it
    again gives the location back: relative links are resolved against the
    page's current location, whatever it is. *)
Theorem relative_base_is_location (locationHref : string) :
  let parts := JsString.split "/" locationHref in
  JsString.join "/" (JsString.slice 0 (length parts) parts) = locationHref.
Proof. apply slice_join_split. Qed.

Lemma map_result_In {A B} (f : A -> Eff B) (xs : list A) (ys : list B) :
  result (JsArray.map f xs) = Ok ys ->
  forall y, In y ys -> exists x, In x xs /\ snd (f x) = Ok y.
Proof.
  revert ys. induction xs as [|x xs IH]; simpl; intros ys Hmap y Hin.
  - injection Hmap as <-. destruct Hin.
  - unfold result, bind in Hmap, IH. destruct (f x) as [t1 [y1|e1]] eqn:Hfx; [|discriminate].
    destruct (JsArray.map f xs) as [t2 [ys2|e2]]; [|discriminate].
    simpl in Hmap. injection Hmap as <-. destruct Hin as [<-|Hin].
    + exists x. split; [now left|]. now rewrite Hfx.
    + destruct (IH ys2 eq_refl y Hin) as (x' & Hx' & Hfx'). exists x'. split; [now right|exact Hfx'].
Qed.

Lemma map_result_Err {A B} (f : A -> Eff B) (xs : list A) (x : A) (e : Error) :
  In x xs -> snd (f x) = Err e -> exists e', result (JsArray.map f xs) = Err e'.
Proof.
  induction xs as [|x0 xs IH]; simpl; intros Hin Hfx; [destruct Hin|].
  unfold result, bind in *. destruct (f x0) as [t1 [y1|e1]] eqn:Hfx0; [|now eexists].
  destruct Hin as [->|Hin]; [rewrite Hfx0 in Hfx; discriminate|].
  destruct (IH Hin Hfx) as [e' He'].
  destruct (JsArray.map f xs) as [t2 [ys2|e2]]; [discriminate|]. now eexists.
Qed.

Lemma map_trace_nil {A B} (f : A -> Eff B) (xs : list A) :
  (forall x, fst (f x) = []) -> fst (JsArray.map f xs) = [].
Proof.
  intros Hquiet. induction xs as [|x xs IH]; simpl; [reflexivity|].
  unfold bind. specialize (Hquiet x). destruct (f x) as [t1 [y1|e1]]; simpl in Hquiet; subst t1;
    [|reflexivity].
  destruct (JsArray.map f xs) as [t2 [ys2|e2]]; simpl in IH; subst t2; reflexivity.
Qed.

Lemma filter_truthy_trace {A} (keep : A -> Eff bool) (xs : list A) :
  (forall x, snd (keep x) = Ok true) ->
  fst (JsArray.filter keep xs) = flat_map (fun x => fst (keep x)) xs.
Proof.
  intros Htruthy. induction xs as [|x xs IH]; simpl; [reflexivity|].
  unfold bind. pose proof (Htruthy x) as Hx. destruct (keep x) as [t1 r1]. simpl in Hx. subst r1.
  pose proof (filter_truthy_keeps_all keep xs Htruthy) as Hkept. unfold result in Hkept.
  destruct (JsArray.filter keep xs) as [t2 r2]. simpl in Hkept, IH. subst r2 t2.
  simpl. now rewrite app_nil_r.
Qed.

Lemma to_absolute_quiet (w : World) (base relativeUrlBase : string) (href : option string) :
  fst (to_absolute w base relativeUrlBase href) = [].
Proof.
  destruct href as [u|]; simpl; [|reflexivity].
  destruct (JsString.startsWith u base); [reflexivity|].
  unfold new_URL, bind. now destruct (URL_new w u _).
Qed.

(** X12: Every link returned by [getLinksToFollow] comes from a non-empty
    [href] of the page that passes the same-site test: it is that [href]
    unchanged when it starts with the base URL (query string and fragment
    included), and otherwise the origin and path of the [href] resolved
    against the page's current location (query string and fragment
    dropped). *)
Theorem getLinksToFollow_links_come_from_hrefs (w : World) (page : Page) (base : string)
    (keywords : option (list string)) (links : list string) (link : string) :
  result (getLinksToFollow w page base keywords) = Ok links ->
  In link links ->
  exists hrefs location href,
    anchors_href page = Ok hrefs /\
    document_location_href page = Ok location /\
    In (Some href) hrefs /\
    href <> EmptyString /\
    isUrlWithinBaseWebsite href base = true /\
    ((JsString.startsWith href base = true /\ link = href) \/
     (JsString.startsWith href base = false /\
      exists resolved, URL_new w href (Some location) = Ok resolved /\
                       link = (origin resolved ++ pathname resolved)%string)).
Proof.
  rewrite getLinksToFollow_result.
  destruct (anchors_href page) as [hrefs|e]; [|discriminate].
  destruct (document_location_href page) as [location|e]; [|discriminate].
  cbv zeta. rewrite slice_join_split. intros Hmap Hin.
  destruct (map_result_In _ _ Hmap link Hin) as (href & Hkept & Habsolute).
  apply filter_In in Hkept. destruct Hkept as [Hhref Hkeep].
  destruct href as [u|]; [|discriminate]. unfold keep_within in Hkeep.
  apply andb_true_iff in Hkeep. destruct Hkeep as [Htruthy Hwithin].
  exists hrefs, location, u. repeat split; try assumption.
  - now apply truthy_nonempty.
  - simpl in Habsolute. destruct (JsString.startsWith u base); [left|right].
    + simpl in Habsolute. injection Habsolute as <-. now split.
    + split; [reflexivity|]. unfold new_URL, bind in Habsolute.
      destruct (URL_new w u (Some location)) as [resolved|e]; [|discriminate].
      simpl in Habsolute. injection Habsolute as <-. now exists resolved.
Qed.

Lemma getLinksToFollow_links_come_from_hrefs_witness :
  (result (getLinksToFollow Example_site.world Example_site.home "https://ex.com" None)
   = Ok ["https://ex.com/about"; "https://ex.com/blog/post"] /\
   In "https://ex.com/about" ["https://ex.com/about"; "https://ex.com/blog/post"]) /\
  exists hrefs location href,
    anchors_href Example_site.home = Ok hrefs /\
    document_location_href Example_site.home = Ok location /\
    In (Some href) hrefs /\
    href <> EmptyString /\
    isUrlWithinBaseWebsite href "https://ex.com" = true /\
    ((JsString.startsWith href "https://ex.com" = true /\ "https://ex.com/about" = href) \/
     (JsString.startsWith href "https://ex.com" = false /\
      exists resolved, URL_new Example_site.world href (Some location) = Ok resolved /\
                       "https://ex.com/about" = (origin resolved ++ pathname resolved)%string)).
Proof.
  assert (Hresult :
            result (getLinksToFollow Example_site.world Example_site.home "https://ex.com" None)
            = Ok ["https://ex.com/about"; "https://ex.com/blog/post"]) by reflexivity.
  assert (Hin : In "https://ex.com/about" ["https://ex.com/about"; "https://ex.com/blog/post"])
    by (now left).
  split; [split; assumption|].
  exact (@getLinksToFollow_links_come_from_hrefs Example_site.world Example_site.home
           "https://ex.com" None _ _ Hresult Hin).
Defined.

(** X13: One [href] that cannot be resolved loses every link of the page: when
    a same-site [href] that does not start with the base URL is rejected
    by [new URL], [getLinksToFollow] throws instead of skipping it. *)
Theorem getLinksToFollow_one_bad_href_throws (w : World) (page : Page) (base : string)
    (keywords : option (list string)) (hrefs : list (option string))
    (location href : string) (e : Error) :
  anchors_href page = Ok hrefs ->
  document_location_href page = Ok location ->
  In (Some href) hrefs ->
  href <> EmptyString ->
  JsString.startsWith href "http" = false ->
  JsString.startsWith href base = false ->
  URL_new w href (Some location) = Err e ->
  exists e', result (getLinksToFollow w page base keywords) = Err e'.
Proof.
  intros Hhrefs Hlocation Hin Hnonempty Hrelative Hbase Hinvalid.
  rewrite getLinksToFollow_result, Hhrefs, Hlocation. cbv zeta.
  rewrite slice_join_split.
  apply map_result_Err with (x := Some href) (e := e).
  - apply filter_In. split; [exact Hin|]. unfold keep_within, isUrlWithinBaseWebsite.
    apply truthy_nonempty in Hnonempty. now rewrite Hnonempty, Hrelative.
  - simpl. rewrite Hbase. unfold new_URL, bind. now rewrite Hinvalid.
Qed.

Lemma getLinksToFollow_one_bad_href_throws_witness :
  (In (Some "//") [Some "/about"; Some "//"] /\
   URL_new Example_site.world "//" (Some "https://ex.com/") = Err Example_site.invalid_url) /\
  exists e', result (getLinksToFollow Example_site.world Example_failures.page_with_bad_link
                       "https://ex.com" None) = Err e'.
Proof.
  assert (Hin : In (Some "//") [Some "/about"; Some "//"]) by (right; now left).
  split; [split; [exact Hin|reflexivity]|].
  apply (@getLinksToFollow_one_bad_href_throws Example_site.world
           Example_failures.page_with_bad_link "https://ex.com" None
           [Some "/about"; Some "//"] "https://ex.com/" "//" Example_site.invalid_url);
    try reflexivity; try exact Hin. discriminate.
Defined.

(** X14: No robots.txt is cached: for every returned link that parses, duplicates
    included, [getLinksToFollow] issues one request for the robots.txt of
    the link's origin, after its two queries of the page. *)
Theorem getLinksToFollow_requests_robots_per_link (w : World) (page : Page) (base : string)
    (keywords : option (list string)) (links : list string) :
  result (getLinksToFollow w page base keywords) = Ok links ->
  trace (getLinksToFollow w page base keywords) =
  [EvEvaluate "a"; EvEvaluate "document.location.href"] ++ flat_map (robots_request w) links.
Proof.
  unfold getLinksToFollow, Js.func, Js.await, page_evaluate, call, result, trace.
  destruct (anchors_href page) as [hrefs|e]; [|discriminate].
  destruct (document_location_href page) as [location|e]; [|discriminate].
  cbv zeta.
  pose proof (map_trace_nil (to_absolute w base
                (JsString.join "/" (JsString.slice 0 (length (JsString.split "/" location))
                                      (JsString.split "/" location))))
                (List.filter (keep_within base) hrefs)
                (to_absolute_quiet w base _)) as Hquiet.
  destruct (JsArray.map _ _) as [t1 [absolute|e]]; [|discriminate].
  simpl in Hquiet. subst t1.
  pose proof (filter_truthy_keeps_all _ absolute (async_filter_callback_truthy w keywords))
    as Hkept.
  pose proof (filter_truthy_trace _ absolute (async_filter_callback_truthy w keywords))
    as Htrace.
  unfold result in Hkept.
  destruct (JsArray.filter _ absolute) as [t2 r2]. simpl in Hkept, Htrace. subst r2 t2.
  simpl. intros Hlinks. injection Hlinks as <-. do 2 f_equal.
  rewrite app_nil_r. apply flat_map_ext. intros link.
  unfold robots_and_keywords, bind. rewrite isUrlAllowedInRobots_eq. simpl.
  destruct (match URL_new w link None with Ok _ => _ | Err _ => _ end); simpl;
    now rewrite ?app_nil_r.
Qed.

Lemma getLinksToFollow_requests_robots_per_link_witness :
  result (getLinksToFollow Example_site.world Example_site.home "https://ex.com" None)
  = Ok ["https://ex.com/about"; "https://ex.com/blog/post"] /\
  trace (getLinksToFollow Example_site.world Example_site.home "https://ex.com" None) =
  [EvEvaluate "a"; EvEvaluate "document.location.href";
   EvFetch "GET" "https://ex.com/robots.txt"; EvFetch "GET" "https://ex.com/robots.txt"].
Proof.
  assert (Hresult :
            result (getLinksToFollow Example_site.world Example_site.home "https://ex.com" None)
            = Ok ["https://ex.com/about"; "https://ex.com/blog/post"]) by reflexivity.
  split; [exact Hresult|].
  exact (@getLinksToFollow_requests_robots_per_link Example_site.world Example_site.home
           "https://ex.com" None _ Hresult).
Defined.

(* ===================================================================== *)
(** ** Further properties of extractPageContentAndUrls *)
(* ===================================================================== *)

Lemma pathname_or_skip_result (w : World) (link : string) :
  result (pathname_or_skip w link) = Ok (pathname_of w link).
Proof.
  unfold pathname_or_skip, pathname_of, result, Js.func, Js.try_catch, Js.await, new_URL.
  now destruct (URL_new w link None).
Qed.

Lemma flatMap_pathnames (w : World) (links : list string) :
  result (JsArray.flatMap (pathname_or_skip w) links) = Ok (flat_map (pathname_of w) links).
Proof.
  induction links as [|link links IH]; simpl; [reflexivity|].
  pose proof (pathname_or_skip_result w link) as Hlink. unfold result, bind in *.
  destruct (pathname_or_skip w link) as [t1 r1]. simpl in Hlink. subst r1.
  destruct (JsArray.flatMap (pathname_or_skip w) links) as [t2 r2]. simpl in IH. subst r2.
  reflexivity.
Qed.

Lemma set_insert_In (seen : list string) (x y : string) :
  In y (JsArray.set_insert seen x) <-> In y seen \/ y = x.
Proof.
  induction seen as [|z seen IH]; simpl.
  - split; [intros [ <- | [] ]; now right | intros [ [] | -> ]; now left].
  - destruct (String.eqb_spec z x) as [->|Hneq]; simpl.
    + split; [now left|]. intros [H | ->]; [exact H|now left].
    + rewrite IH. tauto.
Qed.

Lemma fold_set_insert_In (xs acc : list string) (y : string) :
  In y (fold_left JsArray.set_insert xs acc) <-> In y acc \/ In y xs.
Proof.
  revert acc. induction xs as [|x xs IH]; intros acc; simpl.
  - tauto.
  - rewrite IH, set_insert_In. split; intros H; intuition (subst; auto).
Qed.

Lemma spread_of_Set_In (xs : list string) (y : string) :
  In y (JsArray.spread_of_Set xs) <-> In y xs.
Proof.
  unfold JsArray.spread_of_Set. rewrite fold_set_insert_In. simpl. tauto.
Qed.

(** X15: When the page is visited, read and stored and its links are found,
    the returned paths are exactly the path names of the discovered links
    that parse as URLs; a link that does not parse is skipped. *)
Theorem extract_returns_pathnames_of_links (w : World) (browser : Browser)
    (input : CrawlPageInput) (destination : CrawlDestination)
    (parsed : URL) (page : Page) (content : PageContent) (links : list string) :
  URL_new w (input_path input) (Some (input_baseUrl input)) = Ok parsed ->
  newPage_result w browser = Ok tt ->
  goto_result w (href parsed) = Ok page ->
  result (extractContent w page) = Ok content ->
  result (writePageToS3 w (href parsed) content destination) = Ok tt ->
  result (getLinksToFollow w page (input_baseUrl input) (input_pathKeywords input)) = Ok links ->
  exists paths,
    result (extractPageContentAndUrls w browser input destination) = Ok paths /\
    forall p, In p paths <->
      exists link linkUrl,
        In link links /\ URL_new w link None = Ok linkUrl /\ p = pathname linkUrl.
Proof.
  intros Hurl HnewPage Hgoto Hcontent Hwritten Hlinks.
  exists (flat_map (pathname_of w) (JsArray.spread_of_Set links)). split.
  - rewrite (extract_after_url w browser input destination Hurl).
    unfold visit, Js.await, browser_newPage, page_goto, call, console.
    rewrite HnewPage, Hgoto. unfold result in *.
    destruct (extractContent w page) as [t1 r1]. simpl in Hcontent. subst r1.
    destruct (writePageToS3 w (href parsed) content destination) as [t2 [[]|e]];
      [|discriminate].
    destruct (getLinksToFollow w page _ _) as [t3 r3]. simpl in Hlinks. subst r3.
    pose proof (flatMap_pathnames w (JsArray.spread_of_Set links)) as Hpaths.
    unfold result in Hpaths.
    destruct (JsArray.flatMap _ _) as [t4 r4]. simpl in Hpaths. subst r4. reflexivity.
  - intros p. rewrite in_flat_map. split.
    + intros (link & Hin & Hp). apply (proj1 (spread_of_Set_In _ _)) in Hin.
      unfold pathname_of in Hp.
      destruct (URL_new w link None) as [linkUrl|e] eqn:Hlink; [|destruct Hp].
      destruct Hp as [ <- | [] ]. now exists link, linkUrl.
    + intros (link & linkUrl & Hin & Hlink & ->). exists link. split.
      * now apply (proj2 (spread_of_Set_In _ _)).
      * unfold pathname_of. rewrite Hlink. now left.
Qed.

Lemma extract_returns_pathnames_of_links_witness :
  let input := {| input_baseUrl := "https://ex.com"; input_path := "/";
                  input_pathKeywords := Some ["blog"] |} in
  let destination := {| s3KeyPrefix := "example" |} in
  result (getLinksToFollow Example_site.world Example_site.home "https://ex.com" (Some ["blog"]))
  = Ok ["https://ex.com/about"; "https://ex.com/blog/post"] /\
  exists paths,
    result (extractPageContentAndUrls Example_site.world 1 input destination) = Ok paths /\
    forall p, In p paths <->
      exists link linkUrl,
        In link ["https://ex.com/about"; "https://ex.com/blog/post"] /\
        URL_new Example_site.world link None = Ok linkUrl /\ p = pathname linkUrl.
Proof.
  intros input destination. split; [reflexivity|].
  apply (@extract_returns_pathnames_of_links Example_site.world 1 input destination
           {| href := "https://ex.com/"; origin := "https://ex.com"; pathname := "/" |}
           Example_site.home
           {| metadata := {| title := "Example"; last_modified := EmptyString;
                             url := "https://ex.com/" |};
              html := "<h1>Example</h1>" |});
    reflexivity.
Defined.

#[local] Hint Extern 1 (extractor_event _ = true) => reflexivity : crawler.

Lemma isUrlAllowedInRobots_events (w : World) (link : string) :
  Forall (fun ev => extractor_event ev = true) (fst (isUrlAllowedInRobots w link)).
Proof.
  rewrite isUrlAllowedInRobots_eq. unfold robots_request. simpl.
  destruct (URL_new w link None); auto with crawler.
Qed.

Lemma getLinksToFollow_events (w : World) (page : Page) (base : string)
    (keywords : option (list string)) :
  Forall (fun ev => extractor_event ev = true) (fst (getLinksToFollow w page base keywords)).
Proof.
  unfold getLinksToFollow. apply func_all.
  apply await_all; [simpl; auto with crawler|intros urls].
  apply await_all; [simpl; auto with crawler|intros locationHref]. cbv zeta.
  apply await_all.
  { apply map_all. intros href. rewrite to_absolute_quiet. constructor. }
  intros absolute. apply await_all; [|intros kept; constructor].
  apply filter_all. intros u. apply bind_all; [|intros p; constructor].
  unfold async_call, robots_and_keywords. simpl.
  apply bind_all; [apply isUrlAllowedInRobots_events|intros allowed; constructor].
Qed.

Lemma pathname_or_skip_events (w : World) (u : string) :
  Forall (fun ev => extractor_event ev = true) (fst (pathname_or_skip w u)).
Proof.
  unfold pathname_or_skip, Js.func, Js.try_catch, Js.await, new_URL.
  destruct (URL_new w u None); simpl; auto with crawler.
Qed.

Lemma extract_never_touches_frontier_aux (w : World) (browser : Browser)
    (input : CrawlPageInput) (destination : CrawlDestination) :
  Forall (fun ev => extractor_event ev = true)
    (trace (extractPageContentAndUrls w browser input destination)).
Proof.
  unfold extractPageContentAndUrls, trace. apply func_all.
  apply await_all; [constructor|intros parsed]. cbv zeta.
  apply try_catch_all; [|intros e l; simpl; auto with crawler].
  unfold visit.
  apply await_all; [simpl; auto with crawler|intros _].
  apply await_all; [simpl; auto with crawler|intros page].
  apply await_all; [rewrite extractContent_eq; simpl; auto 6 with crawler|intros content].
  apply await_all; [simpl; auto with crawler|intros _].
  apply await_all.
  { rewrite writePageToS3_eq. destruct (JsString.truthy (html content)); cbv zeta;
      [destruct (putObject_result w _ _ _)|]; simpl; auto with crawler. }
  intros _.
  apply await_all; [apply getLinksToFollow_events|intros links]. cbv zeta.
  apply await_all; [simpl; auto with crawler|intros _].
  apply await_all; [apply flatMap_all, pathname_or_skip_events|intros paths].
  apply await_all; [simpl; auto with crawler|intros _]. constructor.
Qed.

(** X16: [extractPageContentAndUrls] only works on the page, over HTTP, on the
    blob store and on the console: it never marks a path visited, never
    queues paths, and never launches or closes a browser. *)
Theorem extract_never_touches_frontier (w : World) (browser : Browser)
    (input : CrawlPageInput) (destination : CrawlDestination) (ev : Event) :
  In ev (trace (extractPageContentAndUrls w browser input destination)) ->
  extractor_event ev = true /\
  (forall table p, ev <> EvMarkPathAsVisited table p) /\
  (forall table paths, ev <> EvQueuePaths table paths) /\
  ev <> EvLaunch /\
  (forall b, ev <> EvClose b).
Proof.
  intros Hin.
  pose proof (extract_never_touches_frontier_aux w browser input destination) as Hall.
  rewrite Forall_forall in Hall. specialize (Hall ev Hin).
  split; [exact Hall|]. repeat split; intros; intros ->; discriminate.
Qed.

Lemma extract_never_touches_frontier_witness :
  In (EvGoto "https://ex.com/")
     (trace (extractPageContentAndUrls Example_site.world 1
               {| input_baseUrl := "https://ex.com"; input_path := "/";
                  input_pathKeywords := None |}
               {| s3KeyPrefix := "example" |})) /\
  extractor_event (EvGoto "https://ex.com/") = true.
Proof.
  assert (Hin : In (EvGoto "https://ex.com/")
                  (trace (extractPageContentAndUrls Example_site.world 1
                            {| input_baseUrl := "https://ex.com"; input_path := "/";
                               input_pathKeywords := None |}
                            {| s3KeyPrefix := "example" |}))).
  { vm_compute. tauto. }
  split; [exact Hin|].
  exact (proj1 (@extract_never_touches_frontier Example_site.world 1 _ _ _ Hin)).
Defined.

(* ===================================================================== *)
(** ** Further properties of the step *)
(* ===================================================================== *)

(** The run of the step once the browser is launched. *)
Lemma crawl_after_launch (w : World) (path : string) (crawlContext : CrawlContext)
    (exe : string) (b : Browser) :
  markPathAsVisited_result w (contextTableName crawlContext) path = Ok tt ->
  executablePath_result w = Ok exe ->
  launch_result w exe = Ok b ->
  let extraction :=
    extractPageContentAndUrls w b
      {| input_baseUrl := baseUrl crawlContext; input_path := path;
         input_pathKeywords := pathKeywords crawlContext |}
      {| s3KeyPrefix := crawlName crawlContext |} in
  crawlPageAndQueueUrls w path crawlContext =
  ([EvMarkPathAsVisited (contextTableName crawlContext) path;
    EvConsole LogLevel "Marked path as visited."; EvExecutablePath; EvLaunch]
   ++ trace extraction
   ++ match result extraction with
      | Err _ => [step_caught]
      | Ok paths =>
          [EvConsole LogLevel "Synced content from";
           EvConsole LogLevel "Queueing new urls to visit";
           EvQueuePaths (contextTableName crawlContext) paths]
          ++ match queuePaths_result w (contextTableName crawlContext) paths with
             | Ok _ => []
             | Err _ => [step_caught]
             end
      end
   ++ [EvClose b],
   match close_result w b with
   | Ok _ => Ok EmptyObject
   | Err e => Err e
   end).
Proof.
  intros Hmark Hexe Hlaunch extraction. subst extraction.
  unfold crawlPageAndQueueUrls, Js.func, Js.seq, Js.try_catch_finally, Js.try_finally,
    Js.try_catch, crawl_try, crawl_finally, Js.reading, Js.await, Js.seq, Js.assign,
    markPathAsVisited, console, chrome_executablePath, chrome_puppeteer_launch,
    queuePaths, browser_close, call, Js.skip, trace, result, step_caught.
  cbv zeta. rewrite Hmark, Hexe, Hlaunch.
  destruct (extractPageContentAndUrls w b _ _) as [te [paths|e]]; simpl.
  - destruct (queuePaths_result w _ paths) as [[]|e]; simpl;
      destruct (close_result w b) as [[]|e']; simpl;
      rewrite <- ?app_assoc; simpl; rewrite ?app_nil_r; reflexivity.
  - destruct (close_result w b) as [[]|e']; simpl;
      rewrite <- ?app_assoc; simpl; rewrite ?app_nil_r; reflexivity.
Qed.

(** X17: Once the browser is launched, closing it is the last call of the step
    whatever happened in between, and the step throws exactly when that
    call fails. *)
Theorem browser_is_closed_last (w : World) (path : string) (crawlContext : CrawlContext)
    (exe : string) (b : Browser) :
  markPathAsVisited_result w (contextTableName crawlContext) path = Ok tt ->
  executablePath_result w = Ok exe ->
  launch_result w exe = Ok b ->
  (exists before, trace (crawlPageAndQueueUrls w path crawlContext) = before ++ [EvClose b]) /\
  result (crawlPageAndQueueUrls w path crawlContext) =
    match close_result w b with Ok _ => Ok EmptyObject | Err e => Err e end.
Proof.
  intros Hmark Hexe Hlaunch.
  rewrite (crawl_after_launch w path crawlContext Hmark Hexe Hlaunch).
  split; [|reflexivity]. unfold trace. simpl.
  eexists. rewrite !app_comm_cons, !app_assoc. reflexivity.
Qed.

Lemma browser_is_closed_last_witness :
  let w := Example_site.with_goto (Err "net::ERR_NAME_NOT_RESOLVED") Example_site.world in
  (markPathAsVisited_result w "crawl-context" "/" = Ok tt /\
   executablePath_result w = Ok "/opt/bin/chromium" /\
   launch_result w "/opt/bin/chromium" = Ok 1) /\
  (exists before,
     trace (crawlPageAndQueueUrls w "/" Example_site.context) = before ++ [EvClose 1]) /\
  result (crawlPageAndQueueUrls w "/" Example_site.context) = Ok EmptyObject.
Proof.
  intros w. split; [repeat split|].
  apply (@browser_is_closed_last w "/" Example_site.context "/opt/bin/chromium" 1);
    reflexivity.
Defined.

Lemma crawl_without_browser (w : World) (path : string) (crawlContext : CrawlContext) :
  markPathAsVisited_result w (contextTableName crawlContext) path = Ok tt ->
  (exists e, executablePath_result w = Err e) \/
  (exists exe e, executablePath_result w = Ok exe /\ launch_result w exe = Err e) ->
  result (crawlPageAndQueueUrls w path crawlContext) = Ok EmptyObject /\
  In step_caught (trace (crawlPageAndQueueUrls w path crawlContext)) /\
  forall ev, In ev (trace (crawlPageAndQueueUrls w path crawlContext)) ->
    (forall b, ev <> EvClose b) /\ (forall b, ev <> EvNewPage b) /\
    (forall table paths, ev <> EvQueuePaths table paths).
Proof.
  intros Hmark Hfails.
  unfold crawlPageAndQueueUrls, Js.func, Js.seq, Js.try_catch_finally, Js.try_finally,
    Js.try_catch, crawl_try, crawl_finally, Js.reading, Js.await, Js.seq, Js.assign,
    markPathAsVisited, console, chrome_executablePath, chrome_puppeteer_launch,
    call, Js.skip, trace, result, step_caught.
  cbv zeta. rewrite Hmark.
  destruct Hfails as [[e Hexe]|(exe & e & Hexe & Hlaunch)]; rewrite Hexe; [|rewrite Hlaunch];
    simpl; (split; [reflexivity|]); (split; [tauto|]);
    intros ev Hin; repeat (destruct Hin as [<-|Hin]); try destruct Hin;
    repeat split; discriminate.
Qed.

(** X18: When the browser cannot be started (no executable, or the launch
    fails), nothing is closed: the path stays marked as visited, the error
    is logged and the step returns [{}] whatever closing a browser would
    do. *)
Theorem crawl_when_launch_fails (w : World) (path : string) (crawlContext : CrawlContext) :
  markPathAsVisited_result w (contextTableName crawlContext) path = Ok tt ->
  (exists e, executablePath_result w = Err e) \/
  (exists exe e, executablePath_result w = Ok exe /\ launch_result w exe = Err e) ->
  result (crawlPageAndQueueUrls w path crawlContext) = Ok EmptyObject /\
  In step_caught (trace (crawlPageAndQueueUrls w path crawlContext)) /\
  forall ev, In ev (trace (crawlPageAndQueueUrls w path crawlContext)) ->
    (forall b, ev <> EvClose b) /\ (forall b, ev <> EvNewPage b) /\
    (forall table paths, ev <> EvQueuePaths table paths).
Proof. apply crawl_without_browser. Qed.

Lemma crawl_when_launch_fails_witness :
  (markPathAsVisited_result Example_failures.world_without_browser "crawl-context" "/" = Ok tt /\
   exists exe e,
     executablePath_result Example_failures.world_without_browser = Ok exe /\
     launch_result Example_failures.world_without_browser exe = Err e) /\
  result (crawlPageAndQueueUrls Example_failures.world_without_browser "/" Example_site.context)
  = Ok EmptyObject.
Proof.
  assert (Hfails : exists exe e,
             executablePath_result Example_failures.world_without_browser = Ok exe /\
             launch_result Example_failures.world_without_browser exe = Err e).
  { do 2 eexists. split; reflexivity. }
  split; [split; [reflexivity|exact Hfails]|].
  apply (@crawl_when_launch_fails Example_failures.world_without_browser "/"
           Example_site.context eq_refl (or_intror Hfails)).
Defined.

(** X19: A path that does not resolve against the base URL costs a browser
    launch: the path is marked visited, the browser is started, the error
    of [new URL] is caught by the step, nothing is queued and the browser
    is closed. *)
Theorem crawl_when_path_is_invalid (w : World) (path : string) (crawlContext : CrawlContext)
    (exe : string) (b : Browser) (e : Error) :
  markPathAsVisited_result w (contextTableName crawlContext) path = Ok tt ->
  executablePath_result w = Ok exe ->
  launch_result w exe = Ok b ->
  URL_new w path (Some (baseUrl crawlContext)) = Err e ->
  trace (crawlPageAndQueueUrls w path crawlContext) =
  [EvMarkPathAsVisited (contextTableName crawlContext) path;
   EvConsole LogLevel "Marked path as visited."; EvExecutablePath; EvLaunch;
   step_caught; EvClose b].
Proof.
  intros Hmark Hexe Hlaunch Hurl.
  rewrite (crawl_after_launch w path crawlContext Hmark Hexe Hlaunch).
  unfold extractPageContentAndUrls, Js.func, Js.await, new_URL, trace, result. simpl.
  rewrite Hurl. reflexivity.
Qed.

Lemma crawl_when_path_is_invalid_witness :
  URL_new Example_site.world "//" (Some "https://ex.com") = Err Example_site.invalid_url /\
  trace (crawlPageAndQueueUrls Example_site.world "//" Example_site.context) =
  [EvMarkPathAsVisited "crawl-context" "//";
   EvConsole LogLevel "Marked path as visited."; EvExecutablePath; EvLaunch;
   step_caught; EvClose 1].
Proof.
  split; [reflexivity|].
  apply (@crawl_when_path_is_invalid Example_site.world "//" Example_site.context
           "/opt/bin/chromium" 1 Example_site.invalid_url); reflexivity.
Defined.

(** X20: Whatever the step queues is what [extractPageContentAndUrls] returned
    for this path, base URL and keywords, on the context table of the
    crawl; in particular nothing is queued when the extraction throws. *)
Theorem queued_paths_are_the_extracted_paths (w : World) (path : string)
    (crawlContext : CrawlContext) (table : string) (paths : list string) :
  In (EvQueuePaths table paths) (trace (crawlPageAndQueueUrls w path crawlContext)) ->
  table = contextTableName crawlContext /\
  exists b,
    result (extractPageContentAndUrls w b
              {| input_baseUrl := baseUrl crawlContext; input_path := path;
                 input_pathKeywords := pathKeywords crawlContext |}
              {| s3KeyPrefix := crawlName crawlContext |}) = Ok paths.
Proof.
  destruct (markPathAsVisited_result w (contextTableName crawlContext) path)
    as [[]|e] eqn:Hmark.
  2:{ rewrite (crawl_when_mark_visited_fails_aux w path crawlContext Hmark).
      intros [H|[H|[]]]; discriminate. }
  destruct (executablePath_result w) as [exe|e] eqn:Hexe.
  2:{ intros Hin.
      destruct (@crawl_without_browser w path crawlContext Hmark
                  (or_introl (ex_intro _ e Hexe))) as (_ & _ & Hnone).
      destruct (Hnone _ Hin) as (_ & _ & Hqueue). now contradiction (Hqueue table paths). }
  destruct (launch_result w exe) as [b|e] eqn:Hlaunch.
  2:{ intros Hin.
      destruct (@crawl_without_browser w path crawlContext Hmark
                  (or_intror (ex_intro _ exe (ex_intro _ e (conj Hexe Hlaunch)))))
        as (_ & _ & Hnone).
      destruct (Hnone _ Hin) as (_ & _ & Hqueue). now contradiction (Hqueue table paths). }
  rewrite (crawl_after_launch w path crawlContext Hmark Hexe Hlaunch).
  pose proof (extract_never_touches_frontier_aux w b
                {| input_baseUrl := baseUrl crawlContext; input_path := path;
                   input_pathKeywords := pathKeywords crawlContext |}
                {| s3KeyPrefix := crawlName crawlContext |}) as Hextract.
  rewrite Forall_forall in Hextract.
  unfold trace at 1. simpl. intros Hin.
  repeat (destruct Hin as [Hin|Hin]; [discriminate|]).
  apply in_app_or in Hin. destruct Hin as [Hin|Hin].
  { apply Hextract in Hin. discriminate. }
  apply in_app_or in Hin. destruct Hin as [Hin|[Hin|[]]]; [|discriminate].
  destruct (result (extractPageContentAndUrls w b _ _)) as [found|e] eqn:Hfound.
  - destruct Hin as [Hin|[Hin|[Hin|Hin]]]; try discriminate.
    + injection Hin as <- <-. split; [reflexivity|]. now exists b.
    + destruct (queuePaths_result w _ found); simpl in Hin;
        [destruct Hin|destruct Hin as [Hin|[]]; discriminate].
  - destruct Hin as [Hin|[]]. discriminate.
Qed.

Lemma queued_paths_are_the_extracted_paths_witness :
  In (EvQueuePaths "crawl-context" ["/about"; "/blog/post"])
     (trace (crawlPageAndQueueUrls Example_site.world "/" Example_site.context)) /\
  exists b,
    result (extractPageContentAndUrls Example_site.world b
              {| input_baseUrl := "https://ex.com"; input_path := "/";
                 input_pathKeywords := Some ["blog"] |}
              {| s3KeyPrefix := "example" |}) = Ok ["/about"; "/blog/post"].
Proof.
  assert (Hin : In (EvQueuePaths "crawl-context" ["/about"; "/blog/post"])
                  (trace (crawlPageAndQueueUrls Example_site.world "/" Example_site.context))).
  { vm_compute. tauto. }
  split; [exact Hin|].
  exact (proj2 (@queued_paths_are_the_extracted_paths Example_site.world "/"
                  Example_site.context _ _ Hin)).
Defined.

(* ===================================================================== *)
(** ** The completion step *)
(* ===================================================================== *)

(** The four runs of [completeCrawl]. *)
Lemma completeCrawl_eq (w : CompleteCrawl.CleanupWorld) (c : CompleteCrawl.Context) :
  CompleteCrawl.completeCrawl w c =
  let table := contextTableName (CompleteCrawl.crawl c) in
  let file := [CompleteCrawl.EvLog "Deleting queuedPaths file from S3";
               CompleteCrawl.EvDeleteQueuedPathsFromS3 c] in
  let dropped := [CompleteCrawl.EvLog "Deleting context table";
                  CompleteCrawl.EvDeleteContextTable table] in
  let stamped := [CompleteCrawl.EvLog "Writing end timestamp to history table";
                  CompleteCrawl.EvUpdateHistoryEntry (CompleteCrawl.crawlId c)
                    (CompleteCrawl.Date_toISOString w)] in
  match CompleteCrawl.deleteQueuedPathsFromS3_result w c with
  | Err e => (file, Err e)
  | Ok _ =>
      match CompleteCrawl.deleteContextTable_result w table with
      | Err e => (file ++ dropped, Err e)
      | Ok _ =>
          match CompleteCrawl.updateHistoryEntry_result w (CompleteCrawl.crawlId c)
                  (CompleteCrawl.Date_toISOString w) with
          | Err e => (file ++ dropped ++ stamped, Err e)
          | Ok _ => (file ++ dropped ++ stamped ++ [CompleteCrawl.EvLog "Crawl complete!"],
                     Ok EmptyObject)
          end
      end
  end.
Proof.
  unfold CompleteCrawl.completeCrawl, CompleteCrawl.andThen, CompleteCrawl.log. cbv zeta.
  destruct (CompleteCrawl.deleteQueuedPathsFromS3_result w c) as [[]|e]; [|reflexivity].
  destruct (CompleteCrawl.deleteContextTable_result w _) as [[]|e]; [|reflexivity].
  destruct (CompleteCrawl.updateHistoryEntry_result w _ _) as [[]|e]; reflexivity.
Qed.

(** X21: Unlike the page step, [completeCrawl] catches nothing: it returns [{}]
    exactly when the working file is deleted, the context table is deleted
    and the history entry is updated. *)
Theorem completeCrawl_succeeds_iff (w : CompleteCrawl.CleanupWorld) (c : CompleteCrawl.Context) :
  snd (CompleteCrawl.completeCrawl w c) = Ok EmptyObject <->
  CompleteCrawl.deleteQueuedPathsFromS3_result w c = Ok tt /\
  CompleteCrawl.deleteContextTable_result w (contextTableName (CompleteCrawl.crawl c)) = Ok tt /\
  CompleteCrawl.updateHistoryEntry_result w (CompleteCrawl.crawlId c)
    (CompleteCrawl.Date_toISOString w) = Ok tt.
Proof.
  rewrite completeCrawl_eq. cbv zeta.
  destruct (CompleteCrawl.deleteQueuedPathsFromS3_result w c) as [[]|e1];
    [|split; [discriminate|intros (H & _); discriminate]].
  destruct (CompleteCrawl.deleteContextTable_result w _) as [[]|e2];
    [|split; [discriminate|intros (_ & H & _); discriminate]].
  destruct (CompleteCrawl.updateHistoryEntry_result w _ _) as [[]|e3];
    [|split; [discriminate|intros (_ & _ & H); discriminate]].
  simpl. tauto.
Qed.

(** X22: The end timestamp is written last: a history update appears in the run
    only after both deletions succeeded, and it carries the crawl id and
    the current time. *)
Theorem history_is_updated_after_cleanup (w : CompleteCrawl.CleanupWorld)
    (c : CompleteCrawl.Context) (id endTimestamp : string) :
  In (CompleteCrawl.EvUpdateHistoryEntry id endTimestamp)
     (fst (CompleteCrawl.completeCrawl w c)) ->
  CompleteCrawl.deleteQueuedPathsFromS3_result w c = Ok tt /\
  CompleteCrawl.deleteContextTable_result w (contextTableName (CompleteCrawl.crawl c)) = Ok tt /\
  id = CompleteCrawl.crawlId c /\
  endTimestamp = CompleteCrawl.Date_toISOString w.
Proof.
  rewrite completeCrawl_eq. cbv zeta.
  destruct (CompleteCrawl.deleteQueuedPathsFromS3_result w c) as [[]|e1].
  2:{ simpl. intros [H|[H|[]]]; discriminate. }
  destruct (CompleteCrawl.deleteContextTable_result w _) as [[]|e2].
  2:{ simpl. intros [H|[H|[H|[H|[]]]]]; discriminate. }
  destruct (CompleteCrawl.updateHistoryEntry_result w _ _) as [[]|e3]; simpl;
    intros [H|[H|[H|[H|[H|[H|Hrest]]]]]]; try discriminate;
    try (injection H as <- <-; now repeat split);
    repeat (destruct Hrest as [Hrest|Hrest]; try discriminate); destruct Hrest.
Qed.

Lemma history_is_updated_after_cleanup_witness :
  In (CompleteCrawl.EvUpdateHistoryEntry "crawl-1" "2024-01-01T00:00:00.000Z")
     (fst (CompleteCrawl.completeCrawl CompleteCrawl.world_all_good
             CompleteCrawl.example_context)) /\
  CompleteCrawl.deleteQueuedPathsFromS3_result CompleteCrawl.world_all_good
    CompleteCrawl.example_context = Ok tt.
Proof.
  assert (Hin : In (CompleteCrawl.EvUpdateHistoryEntry "crawl-1" "2024-01-01T00:00:00.000Z")
                  (fst (CompleteCrawl.completeCrawl CompleteCrawl.world_all_good
                          CompleteCrawl.example_context))).
  { vm_compute. tauto. }
  split; [exact Hin|].
  exact (proj1 (@history_is_updated_after_cleanup CompleteCrawl.world_all_good
                  CompleteCrawl.example_context _ _ Hin)).
Defined.

(** X23: When [completeCrawl] throws, the error is that of the first call that
    failed and no later call was made: a failure to delete the working
    file leaves the context table and the history entry untouched, and a
    failure to delete the context table leaves the history entry without
    end timestamp. *)
Theorem completeCrawl_stops_at_first_failure (w : CompleteCrawl.CleanupWorld)
    (c : CompleteCrawl.Context) (e : Error) :
  snd (CompleteCrawl.completeCrawl w c) = Err e ->
  let table := contextTableName (CompleteCrawl.crawl c) in
  let run := fst (CompleteCrawl.completeCrawl w c) in
  (CompleteCrawl.deleteQueuedPathsFromS3_result w c = Err e /\
   forall ev, In ev run ->
     (forall t, ev <> CompleteCrawl.EvDeleteContextTable t) /\
     (forall id ts, ev <> CompleteCrawl.EvUpdateHistoryEntry id ts)) \/
  (CompleteCrawl.deleteQueuedPathsFromS3_result w c = Ok tt /\
   CompleteCrawl.deleteContextTable_result w table = Err e /\
   forall ev, In ev run -> forall id ts, ev <> CompleteCrawl.EvUpdateHistoryEntry id ts) \/
  (CompleteCrawl.deleteQueuedPathsFromS3_result w c = Ok tt /\
   CompleteCrawl.deleteContextTable_result w table = Ok tt /\
   CompleteCrawl.updateHistoryEntry_result w (CompleteCrawl.crawlId c)
     (CompleteCrawl.Date_toISOString w) = Err e).
Proof.
  cbv zeta. rewrite completeCrawl_eq. cbv zeta.
  destruct (CompleteCrawl.deleteQueuedPathsFromS3_result w c) as [[]|e1].
  2:{ simpl. intros Herr. injection Herr as <-. left. split; [reflexivity|].
      intros ev [ <- | [ <- | [] ] ]; split; intros; discriminate. }
  destruct (CompleteCrawl.deleteContextTable_result w _) as [[]|e2].
  2:{ simpl. intros Herr. injection Herr as <-. right. left. repeat split.
      intros ev [ <- | [ <- | [ <- | [ <- | [] ] ] ] ]; intros; discriminate. }
  destruct (CompleteCrawl.updateHistoryEntry_result w _ _) as [[]|e3]; simpl;
    [discriminate|].
  intros Herr. injection Herr as <-. right. right. now repeat split.
Qed.

Lemma completeCrawl_stops_at_first_failure_witness :
  snd (CompleteCrawl.completeCrawl CompleteCrawl.world_file_missing
         CompleteCrawl.example_context) = Err "NoSuchKey" /\
  ~ In (CompleteCrawl.EvDeleteContextTable "crawl-context")
       (fst (CompleteCrawl.completeCrawl CompleteCrawl.world_file_missing
               CompleteCrawl.example_context)).
Proof.
  assert (Hthrows : snd (CompleteCrawl.completeCrawl CompleteCrawl.world_file_missing
                           CompleteCrawl.example_context) = Err "NoSuchKey") by reflexivity.
  split; [exact Hthrows|].
  destruct (@completeCrawl_stops_at_first_failure CompleteCrawl.world_file_missing
              CompleteCrawl.example_context "NoSuchKey" Hthrows)
    as [[_ Hnone]|[(Hok & _)|(Hok & _)]]; [|discriminate Hok|discriminate Hok].
  intros Hin. destruct (Hnone _ Hin) as [Htable _]. now contradiction (Htable "crawl-context").
Defined.
